(** * timeit: running statistics over duration samples

    A shallow embedding of the Go package [timeit] (files [timeit.go] and
    its marshalling companion) together with the properties its
    specification states about it.

    Conventions of the embedding:
    - [int64] and [time.Duration] values are integers of [Z]; every
      arithmetic operation of the source is followed by the two's
      complement wrap-around Go performs ([I64.wrap]);
    - a [*Data] is an address into a store of [Data] records, so that
      chained accumulators may be shared or even cyclic, as in Go;
    - a run-time panic is an explicit result, and it carries the store as
      the panic leaves it;
    - recursion through [Next] is bounded by fuel: running out of fuel is
      the model's reading of a call that never returns. *)

From Stdlib Require Import ZArith Lia List Bool String.
From Stdlib Require Floats.
From stdpp Require Import gmap.

Local Open Scope Z_scope.

(** ** 64-bit signed integers *)

Module I64.

Definition min_int : Z := - 2 ^ 63.
Definition max_int : Z := 2 ^ 63 - 1.

(** The value an [int64] holds after an operation whose exact result
    is [z]. *)
Definition wrap (z : Z) : Z := (z + 2 ^ 63) mod 2 ^ 64 - 2 ^ 63.

(** [z] is representable: wrapping does not change it. *)
Definition fits (z : Z) : Prop := min_int <= z <= max_int.

Definition add (x y : Z) : Z := wrap (x + y).
Definition sub (x y : Z) : Z := wrap (x - y).
Definition mul (x y : Z) : Z := wrap (x * y).

(** Go's [x / y]: the quotient truncated toward zero; a zero divisor is
    the run-time panic "integer divide by zero" ([None]).  The one
    quotient that does not fit, [min_int / -1], wraps to [min_int]. *)
Definition quo (x y : Z) : option Z :=
  if y =? 0 then None else Some (wrap (Z.quot x y)).

(** A division that also refuses every non-positive divisor; used to
    show which divisors an operation can reach. *)
Definition quo_positive (x y : Z) : option Z :=
  if y <=? 0 then None else Some (wrap (Z.quot x y)).

End I64.

(** ** The accumulator *)

Abbreviation loc := positive.

(** [type Data struct], with the [Flags] field of the marshalling
    version of the package; [Next] is a pointer, [None] is [nil]. *)
Record Data : Type := mkData {
  Samples : Z;
  Mean : Z;
  Max : Z;
  Min : Z;
  Flags : Z;
  Next : option loc;
  m2 : Z
}.

(** The zero value [Data{}]. *)
Definition zeroData : Data := mkData 0 0 0 0 0 None 0.

(** Field assignments [d.F = v]. *)
Definition set_Samples (v : Z) (d : Data) : Data :=
  mkData v (Mean d) (Max d) (Min d) (Flags d) (Next d) (m2 d).
Definition set_Mean (v : Z) (d : Data) : Data :=
  mkData (Samples d) v (Max d) (Min d) (Flags d) (Next d) (m2 d).
Definition set_Max (v : Z) (d : Data) : Data :=
  mkData (Samples d) (Mean d) v (Min d) (Flags d) (Next d) (m2 d).
Definition set_Min (v : Z) (d : Data) : Data :=
  mkData (Samples d) (Mean d) (Max d) v (Flags d) (Next d) (m2 d).
Definition set_Flags (v : Z) (d : Data) : Data :=
  mkData (Samples d) (Mean d) (Max d) (Min d) v (Next d) (m2 d).
Definition set_m2 (v : Z) (d : Data) : Data :=
  mkData (Samples d) (Mean d) (Max d) (Min d) (Flags d) (Next d) v.

(** The statistical part of an accumulator: everything but the link and
    the marshalling flags. *)
Definition stats (d : Data) : Z * Z * Z * Z * Z :=
  (Samples d, Mean d, Max d, Min d, m2 d).

(** ** Panics and outcomes *)

Inductive panic : Type :=
  | DivideByZero              (* runtime error: integer divide by zero *)
  | NilDereference            (* runtime error: nil pointer dereference *)
  | Raised (code : Z).        (* a panic raised by user code *)

(** How a call that came to an end left. *)
Inductive exit (A : Type) : Type :=
  | Return (a : A)
  | Panicking (p : panic).
Arguments Return {A} a.
Arguments Panicking {A} p.

(** A call either ends, leaving a state behind, or has not ended within
    the fuel it was given. *)
Inductive outcome (St A : Type) : Type :=
  | Finished (e : exit A) (s : St)
  | Unfinished.
Arguments Finished {St A} e s.
Arguments Unfinished {St A}.

(** ** Update *)

(** What the statements of [Update] before the hand-over to [Next] do to
    the record [d] points to.  The division is the only statement that
    can panic, and it does so after [Min], [Max] and [Samples] have been
    written. *)
Inductive body_result : Type :=
  | Stepped (d : Data)
  | DivideFault (d : Data).

Definition Update_body (d : Data) (sample : Z) : body_result :=
  let d := if (Samples d =? 0) || (sample <? Min d) then set_Min sample d else d in
  let d := if (Samples d =? 0) || (sample >? Max d) then set_Max sample d else d in
  let d := set_Samples (I64.add (Samples d) 1) d in
  let delta1 := I64.sub sample (Mean d) in
  match I64.quo delta1 (Samples d) with
  | None => DivideFault d
  | Some q =>
      let d := set_Mean (I64.add (Mean d) q) d in
      let delta2 := I64.sub sample (Mean d) in
      Stepped (set_m2 (I64.add (m2 d) (I64.mul delta1 delta2)) d)
  end.

(** [func (d *Data) Update(sample time.Duration)] on a store.  An
    address without a record stands for a pointer that cannot be
    dereferenced. *)
Fixpoint Update (fuel : nat) (d : loc) (sample : Z) (st : gmap loc Data)
  : outcome (gmap loc Data) unit :=
  match fuel with
  | O => Unfinished
  | S fuel' =>
      match st !! d with
      | None => Finished (Panicking NilDereference) st
      | Some r =>
          match Update_body r sample with
          | DivideFault r' => Finished (Panicking DivideByZero) (<[d := r']> st)
          | Stepped r' =>
              let st' := <[d := r']> st in
              match Next r' with
              | None => Finished (Return tt) st'
              | Some n => Update fuel' n sample st'
              end
          end
      end
  end.

(** A caller folding a sequence of samples: one [Update] call per sample,
    in order, stopping at the first call that does not return. *)
Fixpoint Updates (fuel : nat) (d : loc) (samples : list Z) (st : gmap loc Data)
  : outcome (gmap loc Data) unit :=
  match samples with
  | [] => Finished (Return tt) st
  | s :: rest =>
      match Update fuel d s st with
      | Finished (Return _) st' => Updates fuel d rest st'
      | other => other
      end
  end.

(** ** Variance and standard deviation *)

Section Division.

(** The integer division the operations below use; the program runs them
    with [I64.quo]. *)
Variable quo : Z -> Z -> option Z.

Definition Variance_with (d : Data) : option Z :=
  if Samples d <=? 0 then Some 0
  else quo (m2 d) (Samples d).

Definition SampleVariance_with (d : Data) : option Z :=
  if Samples d <=? 1 then Some 0
  else quo (m2 d) (I64.sub (Samples d) 1).

End Division.

(** [func (d *Data) Variance() time.Duration]; [None] would be a
    divide-by-zero panic. *)
Definition Variance : Data -> option Z := Variance_with I64.quo.

(** [func (d *Data) SampleVariance() time.Duration]. *)
Definition SampleVariance : Data -> option Z := SampleVariance_with I64.quo.

(** *** float64 *)

Module F64.

(** [float64(z)]: the binary64 number nearest to [z], ties to even. *)
Definition of_int64 (z : Z) : PrimFloat.float :=
  FloatOps.SF2Prim (SpecFloat.binary_normalize FloatOps.prec FloatOps.emax z 0 false).

(** The integer part of a finite float; [None] for infinities and NaN. *)
Definition truncate (f : PrimFloat.float) : option Z :=
  match FloatOps.Prim2SF f with
  | SpecFloat.S754_zero _ => Some 0
  | SpecFloat.S754_finite s m e =>
      let magnitude := if 0 <=? e then Z.pos m * 2 ^ e else Z.pos m / 2 ^ (- e) in
      Some (if s then - magnitude else magnitude)
  | SpecFloat.S754_infinity _ => None
  | SpecFloat.S754_nan => None
  end.

(** [int64(f)]: the fraction is discarded.  When the integer part is not
    an [int64] (or there is none) the conversion still succeeds and Go
    leaves its value to the platform: [unrepresentable f]. *)
Definition to_int64 (unrepresentable : PrimFloat.float -> Z) (f : PrimFloat.float) : Z :=
  match truncate f with
  | Some z => if (I64.min_int <=? z) && (z <=? I64.max_int) then z else unrepresentable f
  | None => unrepresentable f
  end.

End F64.

Section Deviation.

(** The platform's result for a float-to-integer conversion Go leaves
    unspecified. *)
Variable unrepresentable : PrimFloat.float -> Z.

(** [time.Duration(math.Sqrt(float64(v)))] *)
Definition sqrt_duration (v : Z) : Z :=
  F64.to_int64 unrepresentable (PrimFloat.sqrt (F64.of_int64 v)).

(** [func (d *Data) StdDev() time.Duration] *)
Definition StdDev (d : Data) : option Z :=
  match Variance d with
  | Some v => Some (sqrt_duration v)
  | None => None
  end.

(** [func (d *Data) SampleStdDev() time.Duration] *)
Definition SampleStdDev (d : Data) : option Z :=
  match SampleVariance d with
  | Some v => Some (sqrt_duration v)
  | None => None
  end.

End Deviation.

(** ** TimeIt *)

Section Timing.

(** Whatever the program can observe besides the store, the clock among
    it; [time.Time]; and the two functions of package [time] that
    [TimeIt] calls. *)
Variable Env : Type.
Variable Time : Type.
Variable time_Now : Env -> Time.
Variable time_Since : Time -> Env -> Z.

Record World : Type := mkWorld {
  store : gmap loc Data;
  env : Env
}.

(** A function body with one named result and one deferred call.  Body
    and deferred call share the frame, here the named result.  When the
    body ends, by [return] or by a panic, the deferred call runs; then
    the function returns the named result as the deferred call left it,
    or goes on panicking (nothing here calls [recover]).  A panic of the
    deferred call itself takes over. *)
Definition with_defer {R : Type}
    (deferred body : World * R -> outcome (World * R) unit) (zero : R)
  : World -> outcome World R :=
  fun w =>
    match body (w, zero) with
    | Finished (Return _) frame =>
        match deferred frame with
        | Finished (Return _) (w', r) => Finished (Return r) w'
        | Finished (Panicking p) (w', _) => Finished (Panicking p) w'
        | Unfinished => Unfinished
        end
    | Finished (Panicking p) frame =>
        match deferred frame with
        | Finished (Return _) (w', _) => Finished (Panicking p) w'
        | Finished (Panicking p') (w', _) => Finished (Panicking p') w'
        | Unfinished => Unfinished
        end
    | Unfinished => Unfinished
    end.

(** [func (d *Data) TimeIt(fn func()) (delta time.Duration)] *)
Definition TimeIt (fuel : nat) (d : loc) (fn : World -> outcome World unit)
  : World -> outcome World Z :=
  fun w =>
    let curr := time_Now (env w) in
    with_defer
      (fun '(w, _) =>
         let delta := time_Since curr (env w) in
         match Update fuel d delta (store w) with
         | Finished e st => Finished e (mkWorld st (env w), delta)
         | Unfinished => Unfinished
         end)
      (fun '(w, delta) =>
         match fn w with
         | Finished e w' => Finished e (w', delta)
         | Unfinished => Unfinished
         end)
      0 w.

End Timing.

Arguments mkWorld {Env} store env.
Arguments store {Env} w.
Arguments env {Env} w.
Arguments with_defer {Env R} deferred body zero w.
Arguments TimeIt {Env Time} time_Now time_Since fuel d fn w.

(** ** Marshalling *)

(** [type MarshalFlags uint8] and its constants, [1 << iota]. *)
Module MarshalFlags.
Definition Variance : Z := 1.
Definition SampleVariance : Z := 2.
Definition StdDev : Z := 4.
Definition SampleStdDev : Z := 8.
End MarshalFlags.

(** [type dataMarshaled struct]: every field is a pointer, [None] when
    the field is absent. *)
Module dataMarshaled.
Record t : Type := mk {
  Samples : option Z;
  Mean : option Z;
  Max : option Z;
  Min : option Z;
  Variance : option Z;
  SampleVariance : option Z;
  StdDev : option Z;
  SampleStdDev : option Z
}.
(** [&dataMarshaled{}] *)
Definition empty : t := mk None None None None None None None None.
(** Assignments [obj.F = &tmp] to the computed fields. *)
Definition set_Variance (tmp : Z) (o : t) : t :=
  mk (Samples o) (Mean o) (Max o) (Min o) (Some tmp) (SampleVariance o) (StdDev o)
     (SampleStdDev o).
Definition set_SampleVariance (tmp : Z) (o : t) : t :=
  mk (Samples o) (Mean o) (Max o) (Min o) (Variance o) (Some tmp) (StdDev o)
     (SampleStdDev o).
Definition set_StdDev (tmp : Z) (o : t) : t :=
  mk (Samples o) (Mean o) (Max o) (Min o) (Variance o) (SampleVariance o) (Some tmp)
     (SampleStdDev o).
Definition set_SampleStdDev (tmp : Z) (o : t) : t :=
  mk (Samples o) (Mean o) (Max o) (Min o) (Variance o) (SampleVariance o) (StdDev o)
     (Some tmp).
End dataMarshaled.

(** [func (dm *dataMarshaled) toData(d *Data)], as the new contents of
    [*d]. *)
Definition toData (dm : dataMarshaled.t) (d : Data) : Data :=
  let d := match dataMarshaled.Samples dm with Some v => set_Samples v d | None => d end in
  let d := match dataMarshaled.Mean dm with Some v => set_Mean v d | None => d end in
  let d := match dataMarshaled.Max dm with Some v => set_Max v d | None => d end in
  let d := match dataMarshaled.Min dm with Some v => set_Min v d | None => d end in
  let d :=
    match dataMarshaled.SampleStdDev dm with
    | Some v =>
        let d := set_Flags (Z.lor (Flags d) MarshalFlags.SampleStdDev) d in
        if Samples d >? 1
        then set_m2 (I64.mul (I64.mul v v) (I64.sub (Samples d) 1)) d
        else d
    | None => d
    end in
  let d :=
    match dataMarshaled.StdDev dm with
    | Some v =>
        let d := set_Flags (Z.lor (Flags d) MarshalFlags.StdDev) d in
        set_m2 (I64.mul (I64.mul v v) (Samples d)) d
    | None => d
    end in
  let d :=
    match dataMarshaled.SampleVariance dm with
    | Some v =>
        let d := set_Flags (Z.lor (Flags d) MarshalFlags.SampleVariance) d in
        if Samples d >? 1
        then set_m2 (I64.mul v (I64.sub (Samples d) 1)) d
        else d
    | None => d
    end in
  match dataMarshaled.Variance dm with
  | Some v =>
      let d := set_Flags (Z.lor (Flags d) MarshalFlags.Variance) d in
      set_m2 (I64.mul v (Samples d)) d
  | None => d
  end.

Section Marshal.

Variable unrepresentable : PrimFloat.float -> Z.

(** Whether a computed field is requested:
    [d.Flags == 0 || (d.Flags&flag) != 0]. *)
Definition requested (d : Data) (flag : Z) : bool :=
  (Flags d =? 0) || negb (Z.land (Flags d) flag =? 0).

(** [func (d *Data) marshaler() *dataMarshaled]; [None] if one of the
    statistics panics. *)
Definition marshaler (d : Data) : option dataMarshaled.t :=
  let obj := dataMarshaled.mk (Some (Samples d)) (Some (Mean d)) (Some (Max d))
               (Some (Min d)) None None None None in
  obj ← (if requested d MarshalFlags.Variance
         then tmp ← Variance d; Some (dataMarshaled.set_Variance tmp obj)
         else Some obj);
  obj ← (if requested d MarshalFlags.SampleVariance
         then tmp ← SampleVariance d; Some (dataMarshaled.set_SampleVariance tmp obj)
         else Some obj);
  obj ← (if requested d MarshalFlags.StdDev
         then tmp ← StdDev unrepresentable d; Some (dataMarshaled.set_StdDev tmp obj)
         else Some obj);
  obj ← (if requested d MarshalFlags.SampleStdDev
         then tmp ← SampleStdDev unrepresentable d; Some (dataMarshaled.set_SampleStdDev tmp obj)
         else Some obj);
  Some obj.

End Marshal.

Section Unmarshal.

(** Go's [error] values, and the decoders of the two formats, which are
    not part of this package.  A decoder is handed the text and the
    [dataMarshaled] to fill; it gives back the record as it left it and
    the error, if any. *)
Variable error : Type.
Variable json_Unmarshal : string -> dataMarshaled.t -> dataMarshaled.t * option error.

(** [func (d *Data) UnmarshalYAML(unmarshal func(interface{}) error) error],
    as the new contents of [*d] and the error returned. *)
Definition UnmarshalYAML
    (unmarshal : dataMarshaled.t -> dataMarshaled.t * option error) (d : Data)
  : Data * option error :=
  let (dm, err) := unmarshal dataMarshaled.empty in
  match err with
  | Some e => (d, Some e)
  | None => (toData dm d, None)
  end.

(** [func (d *Data) UnmarshalJSON(text []byte) error] *)
Definition UnmarshalJSON (text : string) (d : Data) : Data * option error :=
  if String.eqb text "null" then (d, None)
  else
    let (dm, err) := json_Unmarshal text dataMarshaled.empty in
    match err with
    | Some e => (d, Some e)
    | None => (toData dm d, None)
    end.

End Unmarshal.

Arguments UnmarshalYAML {error} unmarshal d.
Arguments UnmarshalJSON {error} json_Unmarshal text d.

(** ** Notions the properties are stated with *)

(** A record whose integer fields hold values of their Go types. *)
Definition well_formed (d : Data) : Prop :=
  I64.fits (Samples d) ∧ I64.fits (Mean d) ∧ I64.fits (Max d) ∧ I64.fits (Min d)
  ∧ 0 <= Flags d < 256 ∧ I64.fits (m2 d).

(** No operation of [Update] on [d] and [sample] overflows: the exact
    value of each intermediate result is an [int64]. *)
Definition no_overflow (d : Data) (sample : Z) : Prop :=
  let n := Samples d + 1 in
  let delta1 := sample - Mean d in
  let mean := Mean d + Z.quot delta1 n in
  let delta2 := sample - mean in
  I64.fits n ∧ I64.fits delta1 ∧ I64.fits (Z.quot delta1 n) ∧ I64.fits mean
  ∧ I64.fits delta2 ∧ I64.fits (delta1 * delta2) ∧ I64.fits (m2 d + delta1 * delta2).

(** The variance in the specification's words: zero when the count is
    zero, otherwise [m2] divided by the count, the quotient truncated. *)
Definition Variance_as_specified (d : Data) : Z :=
  if Samples d =? 0 then 0 else Z.quot (m2 d) (Samples d).

(** The import rule in the specification's words.  The basic fields are
    copied; then the derived fields are gone through in a fixed order of
    preference.  A derived field that is present records its flag bit
    and, where its formula applies, overwrites [m2] with what the
    formula reconstructs from the sample count. *)
Inductive derived : Type :=
  | sample_std_dev
  | std_dev
  | sample_variance
  | variance.

Definition preference : list derived :=
  [sample_std_dev; std_dev; sample_variance; variance].

Definition derived_field (k : derived) (dm : dataMarshaled.t) : option Z :=
  match k with
  | sample_std_dev => dataMarshaled.SampleStdDev dm
  | std_dev => dataMarshaled.StdDev dm
  | sample_variance => dataMarshaled.SampleVariance dm
  | variance => dataMarshaled.Variance dm
  end.

Definition derived_flag (k : derived) : Z :=
  match k with
  | sample_std_dev => MarshalFlags.SampleStdDev
  | std_dev => MarshalFlags.StdDev
  | sample_variance => MarshalFlags.SampleVariance
  | variance => MarshalFlags.Variance
  end.

Definition formula_applies (k : derived) (count : Z) : bool :=
  match k with
  | sample_std_dev | sample_variance => 1 <? count
  | std_dev | variance => true
  end.

Definition reconstructed (k : derived) (v count : Z) : Z :=
  match k with
  | sample_std_dev => I64.mul (I64.mul v v) (I64.sub count 1)
  | std_dev => I64.mul (I64.mul v v) count
  | sample_variance => I64.mul v (I64.sub count 1)
  | variance => I64.mul v count
  end.

Definition import_derived (dm : dataMarshaled.t) (d : Data) (k : derived) : Data :=
  match derived_field k dm with
  | None => d
  | Some v =>
      let d := set_Flags (Z.lor (Flags d) (derived_flag k)) d in
      if formula_applies k (Samples d)
      then set_m2 (reconstructed k v (Samples d)) d
      else d
  end.

Definition import_basic (dm : dataMarshaled.t) (d : Data) : Data :=
  mkData (default (Samples d) (dataMarshaled.Samples dm))
         (default (Mean d) (dataMarshaled.Mean dm))
         (default (Max d) (dataMarshaled.Max dm))
         (default (Min d) (dataMarshaled.Min dm))
         (Flags d) (Next d) (m2 d).

Definition toData_as_specified (dm : dataMarshaled.t) (d : Data) : Data :=
  fold_left (import_derived dm) preference (import_basic dm d).

(** [m] is the least, respectively the greatest, element of [l]. *)
Definition is_minimum (l : list Z) (m : Z) : Prop := In m l ∧ ∀ x, In x l → m <= x.
Definition is_maximum (l : list Z) (m : Z) : Prop := In m l ∧ ∀ x, In x l → x <= m.

(** What an unchained accumulator that has been given [seen] holds. *)
Definition has_seen (seen : list Z) (r : Data) : Prop :=
  Next r = None
  ∧ Samples r = Z.of_nat (length seen)
  ∧ (seen = [] ∨ (is_minimum seen (Min r) ∧ is_maximum seen (Max r))).

(** The accumulators [Update] visits from [a]: [a], its [Next], and so
    on up to one whose [Next] is [nil]. *)
Inductive chain (st : gmap loc Data) : loc → list loc → Prop :=
  | chain_last a r :
      st !! a = Some r → Next r = None → chain st a [a]
  | chain_link a r b l :
      st !! a = Some r → Next r = Some b → chain st b l → chain st a (a :: l).

(** The flag bits of the derived fields a record carries, and the [m2]
    an import of the record leaves in an accumulator that holds [count]
    samples and had [m2 = m]. *)
Definition present_flags (dm : dataMarshaled.t) : Z :=
  fold_left
    (fun flags k =>
       match derived_field k dm with
       | Some _ => Z.lor flags (derived_flag k)
       | None => flags
       end)
    preference 0.

Definition imported_m2 (dm : dataMarshaled.t) (count m : Z) : Z :=
  fold_left
    (fun m k =>
       match derived_field k dm with
       | Some v => if formula_applies k count then reconstructed k v count else m
       | None => m
       end)
    preference m.

(** ** The marshalling methods *)

Section MarshalMethods.

Variable unrepresentable : PrimFloat.float -> Z.
Variable error : Type.

(** [json.Marshal], which is not part of this package: the text and the
    error, if any. *)
Variable json_Marshal : dataMarshaled.t -> string * option error.

(** [func (d *Data) MarshalYAML() (interface{}, error)]; [None] if
    building the record panics. *)
Definition MarshalYAML (d : Data) : option (dataMarshaled.t * option error) :=
  obj ← marshaler unrepresentable d; Some (obj, None).

(** [func (d *Data) MarshalJSON() ([]byte, error)] *)
Definition MarshalJSON (d : Data) : option (string * option error) :=
  obj ← marshaler unrepresentable d; Some (json_Marshal obj).

End MarshalMethods.

Arguments MarshalYAML unrepresentable {error} d.
Arguments MarshalJSON unrepresentable {error} json_Marshal d.

(** * Properties *)

(** ** Integer arithmetic *)

Lemma wrap_fits (z : Z) : I64.fits z → I64.wrap z = z.
Proof.
  unfold I64.fits, I64.min_int, I64.max_int, I64.wrap. intros Hz.
  rewrite Z.mod_small; lia.
Qed.

Lemma wrap_range (z : Z) : I64.fits (I64.wrap z).
Proof.
  unfold I64.fits, I64.min_int, I64.max_int, I64.wrap.
  pose proof (Z.mod_pos_bound (z + 2 ^ 63) (2 ^ 64) ltac:(lia)). lia.
Qed.

(** Dividing by a positive number brings a value closer to zero, so the
    quotient of an [int64] is one. *)
Lemma quot_fits (x y : Z) : I64.fits x → 0 < y → I64.fits (Z.quot x y).
Proof.
  unfold I64.fits, I64.min_int, I64.max_int. intros Hx Hy.
  destruct (Z.le_gt_cases 0 x) as [Hpos | Hneg].
  - pose proof (Z.quot_pos x y Hpos Hy).
    assert (Z.quot x y <= x) by (apply Z.quot_le_upper_bound; nia). lia.
  - assert (Hq : Z.quot x y = - Z.quot (- x) y)
      by (rewrite Z.quot_opp_l by lia; lia).
    pose proof (Z.quot_pos (- x) y ltac:(lia) Hy).
    assert (Z.quot (- x) y <= - x) by (apply Z.quot_le_upper_bound; nia). lia.
Qed.

Lemma quo_positive_divisor (x y : Z) :
  I64.fits x → 0 < y → I64.quo x y = Some (Z.quot x y).
Proof.
  intros Hx Hy. unfold I64.quo.
  destruct (Z.eqb_spec y 0) as [-> | _]; [lia |].
  by rewrite wrap_fits by (by apply quot_fits).
Qed.

Lemma quo_positive_agrees (x y : Z) :
  0 < y → I64.quo_positive x y = I64.quo x y.
Proof.
  intros Hy. unfold I64.quo_positive, I64.quo.
  destruct (Z.leb_spec y 0); [lia |]. destruct (Z.eqb_spec y 0); [lia | done].
Qed.

(** ** Update on one record *)

(** [Update_body] with the record written out once. *)
Lemma Update_body_eq (r : Data) (s : Z) :
  Update_body r s =
    let least := if (Samples r =? 0) || (s <? Min r) then s else Min r in
    let greatest := if (Samples r =? 0) || (s >? Max r) then s else Max r in
    let n := I64.add (Samples r) 1 in
    let delta1 := I64.sub s (Mean r) in
    match I64.quo delta1 n with
    | None => DivideFault (mkData n (Mean r) greatest least (Flags r) (Next r) (m2 r))
    | Some q =>
        let mean := I64.add (Mean r) q in
        Stepped (mkData n mean greatest least (Flags r) (Next r)
                   (I64.add (m2 r) (I64.mul delta1 (I64.sub s mean))))
    end.
Proof.
  destruct r as [n mu mx mn fl nx m]. unfold Update_body.
  cbn [Samples Mean Max Min Flags Next m2].
  unfold set_Samples, set_Mean, set_Max, set_Min, set_m2.
  destruct ((n =? 0) || (s <? mn));
    cbn [Samples Mean Max Min Flags Next m2];
    destruct ((n =? 0) || (s >? mx));
    cbn [Samples Mean Max Min Flags Next m2];
    destruct (I64.quo (I64.sub s mu) (I64.add n 1)); reflexivity.
Qed.

Lemma Update_body_Stepped (r : Data) (s : Z) (r' : Data) :
  Update_body r s = Stepped r' →
  I64.add (Samples r) 1 ≠ 0
  ∧ Samples r' = I64.add (Samples r) 1
  ∧ Min r' = (if (Samples r =? 0) || (s <? Min r) then s else Min r)
  ∧ Max r' = (if (Samples r =? 0) || (s >? Max r) then s else Max r)
  ∧ Next r' = Next r ∧ Flags r' = Flags r.
Proof.
  rewrite Update_body_eq. cbn zeta. unfold I64.quo.
  destruct (Z.eqb_spec (I64.add (Samples r) 1) 0); [discriminate |].
  intros [= <-]. by cbn.
Qed.

Lemma Update_body_DivideFault (r : Data) (s : Z) (r' : Data) :
  Update_body r s = DivideFault r' →
  I64.add (Samples r) 1 = 0 ∧ Mean r' = Mean r ∧ m2 r' = m2 r ∧ Next r' = Next r.
Proof.
  rewrite Update_body_eq. cbn zeta. unfold I64.quo.
  destruct (Z.eqb_spec (I64.add (Samples r) 1) 0); [| discriminate].
  intros [= <-]. by cbn.
Qed.

(** The fields [Update] writes are [int64] values again. *)
Lemma Update_body_well_formed (r : Data) (s : Z) (r' : Data) :
  well_formed r → I64.fits s →
  Update_body r s = Stepped r' ∨ Update_body r s = DivideFault r' →
  well_formed r'.
Proof.
  intros (Hn & Hmu & Hmx & Hmn & Hfl & Hm) Hs. rewrite Update_body_eq. cbn zeta.
  assert (Hleast : I64.fits (if (Samples r =? 0) || (s <? Min r) then s else Min r))
    by (by destruct ((Samples r =? 0) || (s <? Min r))).
  assert (Hgreatest : I64.fits (if (Samples r =? 0) || (s >? Max r) then s else Max r))
    by (by destruct ((Samples r =? 0) || (s >? Max r))).
  destruct (I64.quo _ _); intros [[= <-] | [= <-]];
    (repeat split; cbn [Samples Mean Max Min Flags m2];
     try apply wrap_range; try apply Hleast; try apply Hgreatest;
     try apply Hmu; try apply Hm; apply Hfl).
Qed.

Lemma Update_body_steps (r : Data) (s : Z) :
  I64.add (Samples r) 1 ≠ 0 → ∃ r', Update_body r s = Stepped r'.
Proof.
  intros Hn. destruct (Update_body r s) as [r' | r'] eqn:E; [by eexists |].
  apply Update_body_DivideFault in E. tauto.
Qed.

(** ** Update on the store *)

Lemma Update_unchained (fuel : nat) (st : gmap loc Data) (a : loc) (r r' : Data) (s : Z) :
  st !! a = Some r → Next r = None → Update_body r s = Stepped r' →
  Update (S fuel) a s st = Finished (Return tt) (<[a := r']> st).
Proof.
  intros Ha Hnext Hbody. cbn [Update]. rewrite Ha, Hbody. cbn zeta.
  apply Update_body_Stepped in Hbody as (_ & _ & _ & _ & -> & _). by rewrite Hnext.
Qed.

Lemma Update_forwards (fuel : nat) (st : gmap loc Data) (a b : loc) (r r' : Data) (s : Z) :
  st !! a = Some r → Next r = Some b → Update_body r s = Stepped r' →
  Update (S fuel) a s st = Update fuel b s (<[a := r']> st).
Proof.
  intros Ha Hnext Hbody. cbn [Update]. rewrite Ha, Hbody. cbn zeta.
  apply Update_body_Stepped in Hbody as (_ & _ & _ & _ & -> & _). by rewrite Hnext.
Qed.

(** C1. A fresh accumulator that is given the sample 50 and then 25
    holds Samples=2, Mean=38, Max=50, Min=25, m2=325; given 50 and then
    75 it holds Samples=2, Mean=62, Max=75, Min=50, m2=325.  The means
    are those of a quotient truncated toward zero (-25/2 = -12). *)
Theorem Update_fixed_point_example (fuel : nat) (st : gmap loc Data) (a : loc) :
  st !! a = Some zeroData →
  Updates (S fuel) a [50; 25] st
    = Finished (Return tt) (<[a := mkData 2 38 50 25 0 None 325]> st)
  ∧ Updates (S fuel) a [50; 75] st
    = Finished (Return tt) (<[a := mkData 2 62 75 50 0 None 325]> st).
Proof.
  intros Ha.
  assert (H50 : Update (S fuel) a 50 st
                = Finished (Return tt) (<[a := mkData 1 50 50 50 0 None 0]> st))
    by (by apply Update_unchained with (r := zeroData)).
  split; cbn [Updates]; rewrite H50.
  - erewrite Update_unchained; [| apply lookup_insert_eq | done | reflexivity].
    by rewrite insert_insert_eq.
  - erewrite Update_unchained; [| apply lookup_insert_eq | done | reflexivity].
    by rewrite insert_insert_eq.
Qed.

Lemma Update_fixed_point_example_witness :
  Updates 1 1%positive [50; 25] {[ 1%positive := zeroData ]}
    = Finished (Return tt) (<[1%positive := mkData 2 38 50 25 0 None 325]> {[ 1%positive := zeroData ]})
  ∧ Updates 1 1%positive [50; 75] {[ 1%positive := zeroData ]}
    = Finished (Return tt) (<[1%positive := mkData 2 62 75 50 0 None 325]> {[ 1%positive := zeroData ]}).
Proof.
  apply (Update_fixed_point_example 0 {[ 1%positive := zeroData ]} 1%positive).
  reflexivity.
Defined.

(** ** Variance *)

Lemma Variance_value (d : Data) :
  well_formed d →
  Variance d = Some (if Samples d <=? 0 then 0 else Z.quot (m2 d) (Samples d)).
Proof.
  intros (_ & _ & _ & _ & _ & Hm2). unfold Variance, Variance_with.
  destruct (Z.leb_spec (Samples d) 0); [done |].
  apply quo_positive_divisor; [done | lia].
Qed.

(** [Variance] returns whatever the fields hold: its divisor is positive. *)
Lemma Variance_returns (d : Data) : ∃ v, Variance d = Some v.
Proof.
  unfold Variance, Variance_with, I64.quo.
  destruct (Z.leb_spec (Samples d) 0); [by eexists |].
  destruct (Z.eqb_spec (Samples d) 0); [lia | by eexists].
Qed.

Lemma SampleVariance_divisor (d : Data) :
  I64.fits (Samples d) → 1 < Samples d → I64.sub (Samples d) 1 = Samples d - 1.
Proof.
  unfold I64.sub. intros Hn Hgt. apply wrap_fits.
  revert Hn. unfold I64.fits, I64.min_int, I64.max_int. lia.
Qed.

Lemma SampleVariance_value (d : Data) :
  well_formed d →
  SampleVariance d = Some (if Samples d <=? 1 then 0 else Z.quot (m2 d) (Samples d - 1)).
Proof.
  intros (Hn & _ & _ & _ & _ & Hm2). unfold SampleVariance, SampleVariance_with.
  destruct (Z.leb_spec (Samples d) 1); [done |].
  rewrite SampleVariance_divisor by done.
  apply quo_positive_divisor; [done | lia].
Qed.

(** C2, as the code has it.  For every accumulator state, [Variance]
    returns [m2] divided by [Samples], the quotient truncated toward
    zero, when [Samples] is positive, and 0 when [Samples <= 0] whatever
    [m2] is; [SampleVariance] returns [m2] divided by [Samples - 1] when
    [Samples > 1] and 0 when [Samples <= 1].  Both always return a value:
    neither can panic. *)
Theorem Variance_SampleVariance_values (d : Data) :
  well_formed d →
  Variance d = Some (if Samples d <=? 0 then 0 else Z.quot (m2 d) (Samples d))
  ∧ SampleVariance d
    = Some (if Samples d <=? 1 then 0 else Z.quot (m2 d) (Samples d - 1)).
Proof.
  intros Hwf. split; [by apply Variance_value | by apply SampleVariance_value].
Qed.

Lemma Variance_SampleVariance_values_witness :
  Variance (mkData 3 50 75 25 0 None 1250) = Some 416
  ∧ SampleVariance (mkData 3 50 75 25 0 None 1250) = Some 625.
Proof.
  apply (Variance_SampleVariance_values (mkData 3 50 75 25 0 None 1250)).
  unfold well_formed, I64.fits, I64.min_int, I64.max_int. cbn. lia.
Defined.

(** C2 as worded fails on a negative count: with [Samples = -2] and
    [m2 = 50] the code returns 0, where [m2] divided by [Samples] is
    -25. *)
Lemma Variance_negative_count_counterexample :
  well_formed (mkData (-2) 0 0 0 0 None 50)
  ∧ Variance (mkData (-2) 0 0 0 0 None 50) = Some 0
  ∧ Variance_as_specified (mkData (-2) 0 0 0 0 None 50) = -25
  ∧ Variance (mkData (-2) 0 0 0 0 None 50)
    ≠ Some (Variance_as_specified (mkData (-2) 0 0 0 0 None 50)).
Proof.
  repeat split; try reflexivity; try discriminate;
    unfold I64.min_int, I64.max_int; cbn; lia.
Qed.

(** C10. [Variance] returns 0 for every count that is zero or negative
    and [SampleVariance] for every count up to one; run with a division
    that refuses every non-positive divisor they return the very same
    value, so no such divisor ever reaches the division.  A negative
    count is a state the package can be brought into from outside:
    unmarshalling a record whose [samples] field is -3 sets it. *)
Theorem Variance_guards_divisor (d : Data) :
  well_formed d →
  (Samples d <= 0 → Variance d = Some 0)
  ∧ (Samples d <= 1 → SampleVariance d = Some 0)
  ∧ (Variance_with I64.quo_positive d = Variance d ∧ Variance d ≠ None)
  ∧ (SampleVariance_with I64.quo_positive d = SampleVariance d ∧ SampleVariance d ≠ None)
  ∧ (let imported :=
       (UnmarshalYAML (error := unit)
          (fun dm => (dataMarshaled.mk (Some (-3)) (dataMarshaled.Mean dm)
                        (dataMarshaled.Max dm) (dataMarshaled.Min dm)
                        (Some 50) None None None, None))
          zeroData).1 in
     Samples imported = -3 ∧ m2 imported = -150
     ∧ Variance imported = Some 0 ∧ SampleVariance imported = Some 0).
Proof.
  intros Hwf. repeat split.
  - intros Hn. unfold Variance, Variance_with.
    by destruct (Z.leb_spec (Samples d) 0); [| lia].
  - intros Hn. unfold SampleVariance, SampleVariance_with.
    by destruct (Z.leb_spec (Samples d) 1); [| lia].
  - unfold Variance, Variance_with.
    destruct (Z.leb_spec (Samples d) 0); [done |]. by apply quo_positive_agrees.
  - by rewrite Variance_value.
  - unfold SampleVariance, SampleVariance_with.
    destruct (Z.leb_spec (Samples d) 1); [done |]. apply quo_positive_agrees.
    destruct Hwf as (Hn & _). rewrite SampleVariance_divisor by done. lia.
  - by rewrite SampleVariance_value.
Qed.

Lemma Variance_guards_divisor_witness :
  Variance (mkData (-3) 0 0 0 0 None 50) = Some 0
  ∧ SampleVariance (mkData (-3) 0 0 0 0 None 50) = Some 0
  ∧ Variance_with I64.quo_positive (mkData (-3) 0 0 0 0 None 50)
    = Variance (mkData (-3) 0 0 0 0 None 50).
Proof.
  assert (Hwf : well_formed (mkData (-3) 0 0 0 0 None 50))
    by (unfold well_formed, I64.fits, I64.min_int, I64.max_int; cbn; lia).
  destruct (Variance_guards_divisor (mkData (-3) 0 0 0 0 None 50) Hwf)
    as (Hv & Hsv & (Hq & _) & _).
  split; [apply Hv; cbn; lia |]. split; [apply Hsv; cbn; lia | exact Hq].
Defined.

(** ** Import *)

Lemma import_basic_eq (dm : dataMarshaled.t) (d : Data) :
  (let d := match dataMarshaled.Samples dm with Some v => set_Samples v d | None => d end in
   let d := match dataMarshaled.Mean dm with Some v => set_Mean v d | None => d end in
   let d := match dataMarshaled.Max dm with Some v => set_Max v d | None => d end in
   match dataMarshaled.Min dm with Some v => set_Min v d | None => d end)
  = import_basic dm d.
Proof.
  unfold import_basic. destruct d as [n0 mu0 mx0 mn0 fl nx m].
  destruct (dataMarshaled.Samples dm), (dataMarshaled.Mean dm),
    (dataMarshaled.Max dm), (dataMarshaled.Min dm); reflexivity.
Qed.

Lemma import_derived_eq (dm : dataMarshaled.t) (d : Data) (k : derived) :
  import_derived dm d k =
    match derived_field k dm with
    | Some v =>
        let d := set_Flags (Z.lor (Flags d) (derived_flag k)) d in
        match k with
        | sample_std_dev =>
            if Samples d >? 1
            then set_m2 (I64.mul (I64.mul v v) (I64.sub (Samples d) 1)) d else d
        | std_dev => set_m2 (I64.mul (I64.mul v v) (Samples d)) d
        | sample_variance =>
            if Samples d >? 1 then set_m2 (I64.mul v (I64.sub (Samples d) 1)) d else d
        | variance => set_m2 (I64.mul v (Samples d)) d
        end
    | None => d
    end.
Proof.
  unfold import_derived. destruct (derived_field k dm) as [v |]; [| done].
  cbn zeta. destruct k; cbn [formula_applies reconstructed]; by rewrite ?Z.gtb_ltb.
Qed.

Lemma import_derived_Samples (dm : dataMarshaled.t) (d : Data) (k : derived) :
  Samples (import_derived dm d k) = Samples d.
Proof.
  unfold import_derived. destruct (derived_field k dm); [| done].
  cbn zeta. by destruct (formula_applies k _).
Qed.

Lemma import_derived_Flags (dm : dataMarshaled.t) (d : Data) (k : derived) :
  Flags (import_derived dm d k)
  = match derived_field k dm with
    | Some _ => Z.lor (Flags d) (derived_flag k)
    | None => Flags d
    end.
Proof.
  unfold import_derived. destruct (derived_field k dm); [| done].
  cbn zeta. by destruct (formula_applies k _).
Qed.

Lemma import_derived_m2_variance (dm : dataMarshaled.t) (d : Data) (v : Z) :
  dataMarshaled.Variance dm = Some v →
  m2 (import_derived dm d variance) = I64.mul v (Samples d).
Proof. unfold import_derived. cbn [derived_field]. by intros ->. Qed.

(** [toData] is the specification's ordered import, whatever fields are
    present. *)
Lemma toData_refines (dm : dataMarshaled.t) (d : Data) :
  toData dm d = toData_as_specified dm d.
Proof.
  unfold toData_as_specified, preference. cbn [fold_left].
  rewrite <- import_basic_eq. cbn zeta.
  rewrite (import_derived_eq dm _ variance).
  rewrite (import_derived_eq dm _ sample_variance).
  rewrite (import_derived_eq dm _ std_dev).
  rewrite (import_derived_eq dm _ sample_std_dev).
  reflexivity.
Qed.

Lemma land_lor_absorb (x c : Z) : Z.land (Z.lor x c) c = c.
Proof.
  apply Z.bits_inj'. intros i _. rewrite Z.land_spec, Z.lor_spec.
  destruct (Z.testbit x i), (Z.testbit c i); reflexivity.
Qed.

(** The four flags together are the low four bits. *)
Lemma all_flags_value :
  Z.lor (Z.lor (Z.lor MarshalFlags.Variance MarshalFlags.SampleVariance)
           MarshalFlags.StdDev) MarshalFlags.SampleStdDev = 15.
Proof. reflexivity. Qed.

(** ** Folding a sequence of samples *)

Lemma is_minimum_snoc (seen : list Z) (m s : Z) :
  is_minimum seen m → is_minimum (seen ++ [s]) (if s <? m then s else m).
Proof.
  intros [Hin Hle]. split.
  - apply in_or_app. destruct (s <? m); [right; by left | by left].
  - intros x [Hx | [<- | []]]%in_app_or.
    + specialize (Hle x Hx). destruct (Z.ltb_spec s m); lia.
    + destruct (Z.ltb_spec s m); lia.
Qed.

Lemma is_maximum_snoc (seen : list Z) (m s : Z) :
  is_maximum seen m → is_maximum (seen ++ [s]) (if s >? m then s else m).
Proof.
  intros [Hin Hle]. rewrite Z.gtb_ltb. split.
  - apply in_or_app. destruct (m <? s); [right; by left | by left].
  - intros x [Hx | [<- | []]]%in_app_or.
    + specialize (Hle x Hx). destruct (Z.ltb_spec m s); lia.
    + destruct (Z.ltb_spec m s); lia.
Qed.

Lemma Update_body_has_seen (seen : list Z) (r : Data) (s : Z) :
  has_seen seen r → Z.of_nat (length seen) < I64.max_int →
  ∃ r', Update_body r s = Stepped r' ∧ has_seen (seen ++ [s]) r'.
Proof.
  intros (Hnext & Hn & Hmm) Hlen.
  assert (Hcount : I64.add (Samples r) 1 = Z.of_nat (length (seen ++ [s]))).
  { unfold I64.add. rewrite Hn, wrap_fits, length_app; cbn [length]; [lia |].
    revert Hlen. unfold I64.fits, I64.min_int, I64.max_int. lia. }
  destruct (Update_body_steps r s) as [r' Hr'].
  { rewrite Hcount, length_app. cbn [length]. lia. }
  exists r'. split; [done |].
  apply Update_body_Stepped in Hr' as (_ & Hn' & Hmin & Hmax & Hnext' & _).
  split; [congruence |]. split; [congruence |]. right.
  rewrite Hmin, Hmax. destruct Hmm as [-> | [Hlo Hhi]].
  - cbn [length] in Hn. rewrite Hn. cbn.
    split; (split; [by left | by intros x [<- | []]]).
  - assert ((Samples r =? 0) = false) as ->.
    { apply Z.eqb_neq. rewrite Hn. destruct Hlo as [Hin _].
      destruct seen; [destruct Hin | cbn [length]; lia]. }
    cbn [orb]. split; [by apply is_minimum_snoc | by apply is_maximum_snoc].
Qed.

Lemma Updates_has_seen (fuel : nat) (a : loc) (samples : list Z) :
  ∀ (st : gmap loc Data) (seen : list Z) (r : Data),
    st !! a = Some r → has_seen seen r →
    Z.of_nat (length (seen ++ samples)) <= I64.max_int →
    ∃ st' r', Updates (S fuel) a samples st = Finished (Return tt) st'
              ∧ st' !! a = Some r' ∧ has_seen (seen ++ samples) r'
              ∧ ∀ b, b ≠ a → st' !! b = st !! b.
Proof.
  induction samples as [| s rest IH]; intros st seen r Ha Hseen Hlen.
  - exists st, r. rewrite app_nil_r. by cbn.
  - destruct (Update_body_has_seen seen r s Hseen) as (r1 & Hbody & Hseen1).
    { rewrite length_app in Hlen. cbn [length] in Hlen. lia. }
    cbn [Updates].
    rewrite (Update_unchained fuel st a r r1 s Ha (proj1 Hseen) Hbody).
    destruct (IH (<[a := r1]> st) (seen ++ [s]) r1) as (st' & r' & Hrun & Ha' & Hseen' & Hframe).
    + apply lookup_insert_eq.
    + done.
    + by rewrite <- app_assoc.
    + exists st', r'. rewrite <- app_assoc in Hseen'. cbn [app] in Hseen'.
      split; [done |]. split; [done |]. split; [done |].
      intros b Hb. rewrite Hframe by done. by rewrite lookup_insert_ne.
Qed.

(** C4. When [N] samples are folded one after the other into a fresh
    accumulator, every call returns and the accumulator ends with
    [Samples = N]; if there was at least one sample, [Min] is the least
    and [Max] the greatest of the samples.  ([N] is a count the [int64]
    counter can hold.) *)
Theorem Updates_count_min_max
    (fuel : nat) (st : gmap loc Data) (a : loc) (samples : list Z) :
  st !! a = Some zeroData →
  Z.of_nat (length samples) <= I64.max_int →
  ∃ st' r,
    Updates (S fuel) a samples st = Finished (Return tt) st'
    ∧ st' !! a = Some r
    ∧ Samples r = Z.of_nat (length samples)
    ∧ (samples = [] ∨ (is_minimum samples (Min r) ∧ is_maximum samples (Max r))).
Proof.
  intros Ha Hlen.
  destruct (Updates_has_seen fuel a samples st [] zeroData Ha) as
    (st' & r & Hrun & Ha' & (_ & Hn & Hmm) & _).
  - repeat split. by left.
  - done.
  - by exists st', r.
Qed.

Lemma Updates_count_min_max_witness :
  ∃ st' r,
    Updates 1 1%positive [50; 25; 75] {[ 1%positive := zeroData ]}
      = Finished (Return tt) st'
    ∧ st' !! 1%positive = Some r
    ∧ Samples r = 3
    ∧ ([50; 25; 75] = []
       ∨ (is_minimum [50; 25; 75] (Min r) ∧ is_maximum [50; 25; 75] (Max r))).
Proof.
  apply (Updates_count_min_max 0 {[ 1%positive := zeroData ]} 1%positive [50; 25; 75]).
  - reflexivity.
  - unfold I64.max_int. cbn. lia.
Defined.

(** ** Chained accumulators *)

Lemma chain_insert_other (st : gmap loc Data) (a b : loc) (l : list loc) (r : Data) :
  chain st b l → a ∉ l → chain (<[a := r]> st) b l.
Proof.
  induction 1 as [b rb Hb Hnext | b rb c l Hb Hnext _ IH]; intros Hnotin.
  - apply chain_last with rb; [| done].
    rewrite lookup_insert_ne; [done | set_solver].
  - apply chain_link with rb c; [| done | apply IH; set_solver].
    rewrite lookup_insert_ne; [done | set_solver].
Qed.

(** X8. One call reaches every accumulator of an acyclic chain: each
    folds the same sample once, nothing else in the store changes, and
    fuel equal to the length of the chain is enough for the call to
    return (no count on the chain being -1). *)
Lemma Update_chain (s : Z) (l : list loc) :
  ∀ (st : gmap loc Data) (a : loc),
    chain st a l → NoDup l →
    (∀ x r, x ∈ l → st !! x = Some r → I64.add (Samples r) 1 ≠ 0) →
    ∃ st', Update (length l) a s st = Finished (Return tt) st'
           ∧ (∀ x r, x ∈ l → st !! x = Some r →
                ∃ r', Update_body r s = Stepped r' ∧ st' !! x = Some r')
           ∧ (∀ x, x ∉ l → st' !! x = st !! x).
Proof.
  induction l as [| a l IH]; intros st a0 Hchain Hnodup Hcount;
    inversion Hchain as [a1 r Ha Hnext | a1 r b l0 Ha Hnext Hrest]; subst.
  - destruct (Update_body_steps r s) as [r' Hr']; [apply (Hcount a); [set_solver | done] |].
    exists (<[a := r']> st). split; [by apply Update_unchained with r |]. split.
    + intros x rx ->%list_elem_of_singleton Hx.
      exists r'. split; [congruence | apply lookup_insert_eq].
    + intros x Hx. apply lookup_insert_ne. set_solver.
  - apply NoDup_cons in Hnodup as [Hnotin Hnodup].
    destruct (Update_body_steps r s) as [r' Hr']; [apply (Hcount a); [set_solver | done] |].
    destruct (IH (<[a := r']> st) b) as (st' & Hrun & Hin & Hout).
    + by apply chain_insert_other.
    + done.
    + intros x rx Hx. rewrite lookup_insert_ne by set_solver.
      apply Hcount. set_solver.
    + exists st'. cbn [length]. split; [by rewrite (Update_forwards _ st a b r r') |].
      split.
      * intros x rx [-> | Hx]%elem_of_cons Hlook.
        -- exists r'. split; [congruence |].
           rewrite Hout by done. apply lookup_insert_eq.
        -- apply Hin; [done |]. rewrite lookup_insert_ne; [done | set_solver].
      * intros x Hx. rewrite Hout by set_solver.
        apply lookup_insert_ne. set_solver.
Qed.

(** C5. When [Next] is set, [Update] hands the very same sample to the
    chained accumulator: once the accumulator's own fields are written,
    what is left of the call is the call on [Next].  In particular one
    sample folded into a fresh accumulator whose [Next] is fresh too
    leaves both with the same Samples, Mean, Max, Min and m2. *)
Theorem Update_forwards_to_Next :
  (∀ (fuel : nat) (st : gmap loc Data) (a b : loc) (r r' : Data) (s : Z),
     st !! a = Some r → Next r = Some b → Update_body r s = Stepped r' →
     Update (S fuel) a s st = Update fuel b s (<[a := r']> st))
  ∧ (∀ (fuel : nat) (st : gmap loc Data) (a b : loc) (s : Z),
       a ≠ b →
       st !! a = Some (mkData 0 0 0 0 0 (Some b) 0) →
       st !! b = Some zeroData →
       I64.fits s →
       ∃ st' ra rb,
         Update (S (S fuel)) a s st = Finished (Return tt) st'
         ∧ st' !! a = Some ra ∧ st' !! b = Some rb
         ∧ Next ra = Some b ∧ Next rb = None
         ∧ stats ra = stats rb
         ∧ stats ra = (1, s, s, s, 0)).
Proof.
  split; [apply Update_forwards |].
  intros fuel st a b s Hab Ha Hb Hs.
  assert (Hbody : ∀ nx, Update_body (mkData 0 0 0 0 0 nx 0) s
                        = Stepped (mkData 1 s s s 0 nx 0)).
  { intros nx. rewrite Update_body_eq. cbn [Samples Mean Max Min Flags Next m2].
    cbn zeta. unfold I64.quo, I64.add, I64.sub, I64.mul.
    change (I64.wrap (0 + 1)) with 1. cbn [Z.eqb orb].
    rewrite Z.sub_0_r, Z.quot_1_r, !(wrap_fits s Hs), Z.add_0_l, (wrap_fits s Hs).
    rewrite Z.sub_diag. change (I64.wrap 0) with 0.
    rewrite Z.mul_0_r. reflexivity. }
  exists (<[b := mkData 1 s s s 0 None 0]> (<[a := mkData 1 s s s 0 (Some b) 0]> st)),
    (mkData 1 s s s 0 (Some b) 0), (mkData 1 s s s 0 None 0).
  split.
  - rewrite (Update_forwards _ st a b _ _ s Ha eq_refl (Hbody _)).
    apply Update_unchained with zeroData; [| done | apply Hbody].
    by rewrite lookup_insert_ne.
  - split; [by rewrite lookup_insert_ne, lookup_insert_eq |].
    split; [apply lookup_insert_eq | done].
Qed.

Lemma Update_forwards_to_Next_witness :
  ∃ st' ra rb,
    Update 2 1%positive 50
      (<[1%positive := mkData 0 0 0 0 0 (Some 2%positive) 0]> {[ 2%positive := zeroData ]})
    = Finished (Return tt) st'
    ∧ st' !! 1%positive = Some ra ∧ st' !! 2%positive = Some rb
    ∧ Next ra = Some 2%positive ∧ Next rb = None
    ∧ stats ra = stats rb
    ∧ stats ra = (1, 50, 50, 50, 0).
Proof.
  apply (proj2 Update_forwards_to_Next 0%nat
           (<[1%positive := mkData 0 0 0 0 0 (Some 2%positive) 0]> {[ 2%positive := zeroData ]})
           1%positive 2%positive 50).
  - discriminate.
  - reflexivity.
  - reflexivity.
  - unfold I64.fits, I64.min_int, I64.max_int. lia.
Defined.

(** ** The sum of squared differences *)

Lemma quot_bounds (x n : Z) : n ≠ 0 → 0 <= x → - x <= Z.quot x n <= x.
Proof. intros Hn Hx. Z.to_euclidean_division_equations. nia. Qed.

(** A value and what is left of it once a truncated quotient of it is
    taken away never have opposite signs. *)
Lemma quot_keeps_sign (x n : Z) : n ≠ 0 → 0 <= x * (x - Z.quot x n).
Proof.
  intros Hn. destruct (Z.le_gt_cases 0 x) as [Hx | Hx].
  - pose proof (quot_bounds x n Hn Hx). nia.
  - pose proof (quot_bounds (- x) n Hn ltac:(lia)) as Hb.
    rewrite Z.quot_opp_l in Hb by done. nia.
Qed.

(** C8. Let [m2 >= 0] and let no operation of [Update] overflow.
    Whatever the sample and the count, [delta1 = sample - mean_before]
    and [delta2 = sample - mean_after] do not have opposite signs, the
    product added to [m2] is not negative, and [m2] does not decrease.
    (For [Samples = -1] the division panics before [m2] is written, and
    [m2] stays as it is.)  The same holds of the accumulator in the
    store after a call of [Update] on it. *)
Theorem Update_m2_never_decreases (d : Data) (sample : Z) :
  0 <= m2 d → no_overflow d sample →
  match Update_body d sample with
  | Stepped d' =>
      0 <= (sample - Mean d) * (sample - Mean d')
      ∧ m2 d' = m2 d + (sample - Mean d) * (sample - Mean d')
      ∧ 0 <= m2 d <= m2 d'
  | DivideFault d' => Samples d = -1 ∧ m2 d' = m2 d
  end
  ∧ ∀ (fuel : nat) (st : gmap loc Data) (a : loc),
      st !! a = Some d → Next d = None →
      ∃ e d', Update (S fuel) a sample st = Finished e (<[a := d']> st)
              ∧ 0 <= m2 d <= m2 d'.
Proof.
  intros Hm2 (Hn & Hd1 & Hq & Hmean & Hd2 & Hprod & Hsum).
  assert (Hbody :
    match Update_body d sample with
    | Stepped d' =>
        0 <= (sample - Mean d) * (sample - Mean d')
        ∧ m2 d' = m2 d + (sample - Mean d) * (sample - Mean d')
        ∧ 0 <= m2 d <= m2 d'
    | DivideFault d' => Samples d = -1 ∧ m2 d' = m2 d
    end).
  { rewrite Update_body_eq. cbn zeta. unfold I64.quo, I64.add, I64.sub, I64.mul.
    rewrite (wrap_fits _ Hn), (wrap_fits _ Hd1).
    destruct (Z.eqb_spec (Samples d + 1) 0) as [Hzero | Hnonzero].
    - cbn [m2]. split; [lia | done].
    - cbn [Mean m2].
      rewrite (wrap_fits _ Hq), (wrap_fits _ Hmean), (wrap_fits _ Hd2),
        (wrap_fits _ Hprod), (wrap_fits _ Hsum).
      assert (0 <= (sample - Mean d)
                   * (sample - (Mean d + Z.quot (sample - Mean d) (Samples d + 1)))).
      { replace (sample - (Mean d + Z.quot (sample - Mean d) (Samples d + 1)))
          with ((sample - Mean d) - Z.quot (sample - Mean d) (Samples d + 1)) by lia.
        by apply quot_keeps_sign. }
      lia. }
  split; [exact Hbody |].
  intros fuel st a Ha Hnext. cbn [Update]. rewrite Ha.
  destruct (Update_body d sample) as [d' | d'] eqn:E.
  - exists (Return tt), d'. split; [| tauto]. cbn zeta.
    apply Update_body_Stepped in E as (_ & _ & _ & _ & -> & _). by rewrite Hnext.
  - exists (Panicking DivideByZero), d'. split; [done | lia].
Qed.

Lemma Update_m2_never_decreases_witness :
  match Update_body (mkData 1 50 50 50 0 None 0) 25 with
  | Stepped d' =>
      0 <= (25 - 50) * (25 - Mean d')
      ∧ m2 d' = 0 + (25 - 50) * (25 - Mean d')
      ∧ 0 <= 0 <= m2 d'
  | DivideFault d' => 1 = -1 ∧ m2 d' = 0
  end.
Proof.
  apply (Update_m2_never_decreases (mkData 1 50 50 50 0 None 0) 25).
  - apply Z.leb_le. reflexivity.
  - unfold no_overflow, I64.fits. cbn zeta.
    repeat split; apply Z.leb_le; reflexivity.
Defined.

(** ** Standard deviation *)

Lemma sqrt_duration_0 (unrepresentable : PrimFloat.float → Z) :
  sqrt_duration unrepresentable 0 = 0.
Proof. vm_compute. reflexivity. Qed.

(** C9. [StdDev] returns the square root of [Variance()], taken in
    [float64] and cut back to an integer by dropping the fraction.  With
    [Samples = 1] and [m2 = 64] that is 8 (and with [m2 = 35] it is 5,
    the root 5.916 cut, not rounded); with no samples it is 0. *)
Theorem StdDev_truncated_sqrt (unrepresentable : PrimFloat.float → Z) (d : Data) :
  (∃ v, Variance d = Some v
        ∧ StdDev unrepresentable d
          = Some (F64.to_int64 unrepresentable (PrimFloat.sqrt (F64.of_int64 v))))
  ∧ StdDev unrepresentable (mkData 1 0 0 0 0 None 64) = Some 8
  ∧ StdDev unrepresentable (mkData 1 0 0 0 0 None 35) = Some 5
  ∧ (Samples d = 0 → StdDev unrepresentable d = Some 0).
Proof.
  split; [| split; [| split]].
  - destruct (Variance_returns d) as [v Hv]. exists v. split; [done |].
    unfold StdDev. by rewrite Hv.
  - vm_compute. reflexivity.
  - vm_compute. reflexivity.
  - intros Hn. unfold StdDev, Variance, Variance_with. rewrite Hn. cbn [Z.leb Z.compare].
    by rewrite sqrt_duration_0.
Qed.

Lemma StdDev_truncated_sqrt_witness :
  StdDev (fun _ => I64.min_int) (mkData 0 0 0 0 0 None 64) = Some 0.
Proof.
  apply (StdDev_truncated_sqrt (fun _ => I64.min_int) (mkData 0 0 0 0 0 None 64)).
  reflexivity.
Defined.

(** ** TimeIt *)

(** The panics of [Update] itself and calls that do not come to an end:
    the three functions end together, and a panic of the deferred
    [Update] is the one [TimeIt] leaves with. *)
Lemma TimeIt_outcomes {Env Time : Type}
    (time_Now : Env → Time) (time_Since : Time → Env → Z)
    (fuel : nat) (d : loc) (fn : World Env → outcome (World Env) unit) (w : World Env) :
  TimeIt time_Now time_Since fuel d fn w =
    match fn w with
    | Finished e w1 =>
        let delta := time_Since (time_Now (env w)) (env w1) in
        match Update fuel d delta (store w1) with
        | Finished (Return _) st2 =>
            Finished match e with Return _ => Return delta | Panicking p => Panicking p end
                     (mkWorld st2 (env w1))
        | Finished (Panicking p) st2 => Finished (Panicking p) (mkWorld st2 (env w1))
        | Unfinished => Unfinished
        end
    | Unfinished => Unfinished
    end.
Proof.
  unfold TimeIt, with_defer. destruct (fn w) as [[[] | p] w1 |]; [| | done];
    cbn [env store];
    by destruct (Update _ _ _ _) as [[[] | p'] st2 |].
Qed.

(** ** Unmarshalling *)

(** C7. When the decoder reports an error, [UnmarshalJSON] and
    [UnmarshalYAML] return that error and the accumulator is exactly as
    it was, whatever the decoder had put into the record it was
    filling. *)
Theorem Unmarshal_error_leaves_Data {error : Type}
    (json_Unmarshal : string → dataMarshaled.t → dataMarshaled.t * option error)
    (unmarshal : dataMarshaled.t → dataMarshaled.t * option error)
    (text : string) (d : Data) (dm dm' : dataMarshaled.t) (e e' : error) :
  text ≠ "null"%string →
  json_Unmarshal text dataMarshaled.empty = (dm, Some e) →
  unmarshal dataMarshaled.empty = (dm', Some e') →
  UnmarshalJSON json_Unmarshal text d = (d, Some e)
  ∧ UnmarshalYAML unmarshal d = (d, Some e').
Proof.
  intros Htext Hjson Hyaml. split.
  - unfold UnmarshalJSON. destruct (String.eqb_spec text "null"); [done |].
    by rewrite Hjson.
  - unfold UnmarshalYAML. by rewrite Hyaml.
Qed.

Lemma Unmarshal_error_leaves_Data_witness :
  UnmarshalJSON
    (fun _ dm => (dataMarshaled.mk (dataMarshaled.Samples dm) (Some 50) (Some 75) (Some 25)
                    (Some 416) None None None, Some 1%nat))
    "{}" zeroData
  = (zeroData, Some 1%nat)
  ∧ UnmarshalYAML
      (fun dm => (dataMarshaled.mk (Some 3) (dataMarshaled.Mean dm) None None
                    None None None None, Some 2%nat))
      zeroData
    = (zeroData, Some 2%nat).
Proof.
  apply (Unmarshal_error_leaves_Data
           (fun _ dm => (dataMarshaled.mk (dataMarshaled.Samples dm) (Some 50) (Some 75) (Some 25)
                           (Some 416) None None None, Some 1%nat))
           (fun dm => (dataMarshaled.mk (Some 3) (dataMarshaled.Mean dm) None None
                         None None None None, Some 2%nat))
           "{}" zeroData
           (dataMarshaled.mk None (Some 50) (Some 75) (Some 25) (Some 416) None None None)
           (dataMarshaled.mk (Some 3) None None None None None None None)
           1%nat 2%nat).
  - discriminate.
  - reflexivity.
  - reflexivity.
Defined.

(** * Further properties of the code *)

(** ** Wrap-around *)

Lemma wrap_shift (z k : Z) : I64.wrap (z + k * 2 ^ 64) = I64.wrap z.
Proof.
  unfold I64.wrap. replace (z + k * 2 ^ 64 + 2 ^ 63) with (z + 2 ^ 63 + k * 2 ^ 64) by lia.
  by rewrite Z.mod_add.
Qed.

Lemma wrap_offset (z : Z) : ∃ k, I64.wrap z = z + k * 2 ^ 64.
Proof.
  exists (- ((z + 2 ^ 63) / 2 ^ 64)). unfold I64.wrap.
  pose proof (Z.div_mod (z + 2 ^ 63) (2 ^ 64) ltac:(lia)). lia.
Qed.

Lemma wrap_add_wrap_r (x y : Z) : I64.wrap (x + I64.wrap y) = I64.wrap (x + y).
Proof.
  destruct (wrap_offset y) as [k ->].
  replace (x + (y + k * 2 ^ 64)) with (x + y + k * 2 ^ 64) by lia. apply wrap_shift.
Qed.

Lemma wrap_sub_wrap_r (x y : Z) : I64.wrap (x - I64.wrap y) = I64.wrap (x - y).
Proof.
  destruct (wrap_offset y) as [k ->].
  replace (x - (y + k * 2 ^ 64)) with (x - y + (- k) * 2 ^ 64) by lia. apply wrap_shift.
Qed.

Lemma wrap_idempotent (z : Z) : I64.wrap (I64.wrap z) = I64.wrap z.
Proof. apply wrap_fits, wrap_range. Qed.

(** ** The first sample *)

Lemma Update_body_first (r : Data) (s : Z) :
  Samples r = 0 → I64.fits s → I64.fits (m2 r) →
  Update_body r s = Stepped (mkData 1 s s s (Flags r) (Next r) (m2 r)).
Proof.
  intros Hn Hs Hm. rewrite Update_body_eq, Hn. cbn zeta. cbn [Z.eqb orb].
  unfold I64.quo, I64.add, I64.sub, I64.mul.
  change (I64.wrap (0 + 1)) with 1. cbn [Z.eqb].
  rewrite Z.quot_1_r, wrap_idempotent, wrap_add_wrap_r.
  replace (Mean r + (s - Mean r)) with s by lia.
  rewrite (wrap_fits s Hs), Z.sub_diag. change (I64.wrap 0) with 0.
  rewrite Z.mul_0_r. change (I64.wrap 0) with 0.
  by rewrite Z.add_0_r, (wrap_fits _ Hm).
Qed.

Lemma Variance_one_sample (r : Data) :
  Samples r = 1 → I64.fits (m2 r) → Variance r = Some (m2 r).
Proof.
  intros Hn Hm. unfold Variance, Variance_with. rewrite Hn. cbn [Z.leb Z.compare].
  rewrite quo_positive_divisor by (done || lia). by rewrite Z.quot_1_r.
Qed.

Lemma SampleStdDev_few_samples (unrepresentable : PrimFloat.float → Z) (r : Data) :
  Samples r <= 1 → SampleStdDev unrepresentable r = Some 0.
Proof.
  intros Hn. unfold SampleStdDev, SampleVariance, SampleVariance_with.
  destruct (Z.leb_spec (Samples r) 1); [| lia]. by rewrite sqrt_duration_0.
Qed.

(** X1. The first sample given to an accumulator whose count is zero
    becomes its mean, its minimum and its maximum, whatever these fields
    held before, and [m2] is kept.  After it the sample variance and the
    sample standard deviation are 0 and the variance is [m2] itself: 0,
    like the standard deviation, for an accumulator that started with
    [m2 = 0]. *)
Theorem Update_first_sample
    (unrepresentable : PrimFloat.float → Z)
    (fuel : nat) (st : gmap loc Data) (a : loc) (r : Data) (s : Z) :
  st !! a = Some r → Next r = None → Samples r = 0 →
  I64.fits (m2 r) → I64.fits s →
  Update (S fuel) a s st
    = Finished (Return tt) (<[a := mkData 1 s s s (Flags r) None (m2 r)]> st)
  ∧ Variance (mkData 1 s s s (Flags r) None (m2 r)) = Some (m2 r)
  ∧ SampleVariance (mkData 1 s s s (Flags r) None (m2 r)) = Some 0
  ∧ SampleStdDev unrepresentable (mkData 1 s s s (Flags r) None (m2 r)) = Some 0
  ∧ (m2 r = 0 → StdDev unrepresentable (mkData 1 s s s (Flags r) None (m2 r)) = Some 0).
Proof.
  intros Ha Hnext Hn Hm Hs. split; [| split; [| split; [| split]]].
  - rewrite (Update_unchained fuel st a r _ s Ha Hnext (Update_body_first r s Hn Hs Hm)).
    by rewrite Hnext.
  - by apply (Variance_one_sample (mkData 1 s s s (Flags r) None (m2 r))).
  - reflexivity.
  - apply SampleStdDev_few_samples. cbn. lia.
  - intros Hzero. unfold StdDev.
    rewrite (Variance_one_sample (mkData 1 s s s (Flags r) None (m2 r))) by done.
    cbn [m2]. by rewrite Hzero, sqrt_duration_0.
Qed.

Lemma Update_first_sample_witness :
  Update 1 1%positive 70 {[ 1%positive := mkData 0 5 9 (-4) 3 None 0 ]}
    = Finished (Return tt)
        (<[1%positive := mkData 1 70 70 70 3 None 0]> {[ 1%positive := mkData 0 5 9 (-4) 3 None 0 ]})
  ∧ StdDev (fun _ => 0) (mkData 1 70 70 70 3 None 0) = Some 0.
Proof.
  assert (Hfits : ∀ z, (I64.min_int <=? z) && (z <=? I64.max_int) = true → I64.fits z).
  { intros z [H1 H2]%andb_prop. split; by apply Z.leb_le. }
  destruct (Update_first_sample (fun _ => 0) 0 {[ 1%positive := mkData 0 5 9 (-4) 3 None 0 ]}
              1%positive (mkData 0 5 9 (-4) 3 None 0) 70)
    as (Hrun & _ & _ & _ & Hdev); try reflexivity; try (apply Hfits; reflexivity).
  split; [exact Hrun | apply Hdev; reflexivity].
Defined.

(** ** Overflow of the sum of squared differences *)



(** ** The division in Update *)

Lemma count_wraps_to_zero (n : Z) : I64.fits n → I64.add n 1 = 0 → n = -1.
Proof.
  unfold I64.add, I64.fits, I64.min_int, I64.max_int. intros Hn Hz.
  destruct (wrap_offset (n + 1)) as [k Hk]. lia.
Qed.



(** ** The two variances *)

(** X4. With at least two samples and [m2 >= 0] both variances are
    returned and [0 <= Variance() <= SampleVariance() <= m2]. *)
Theorem Variance_le_SampleVariance (d : Data) :
  well_formed d → 0 <= m2 d → 1 < Samples d →
  ∃ v sv, Variance d = Some v ∧ SampleVariance d = Some sv
          ∧ 0 <= v ∧ v <= sv ∧ sv <= m2 d.
Proof.
  intros Hwf Hm Hn.
  exists (Z.quot (m2 d) (Samples d)), (Z.quot (m2 d) (Samples d - 1)).
  rewrite (Variance_value d Hwf), (SampleVariance_value d Hwf).
  destruct (Z.leb_spec (Samples d) 0); [lia |].
  destruct (Z.leb_spec (Samples d) 1); [lia |].
  split; [done |]. split; [done |]. split; [apply Z.quot_pos; lia |].
  split; [apply Z.quot_le_compat_l; lia |].
  apply Z.quot_le_upper_bound; nia.
Qed.

Lemma Variance_le_SampleVariance_witness :
  ∃ v sv, Variance (mkData 3 50 75 25 0 None 1250) = Some v
          ∧ SampleVariance (mkData 3 50 75 25 0 None 1250) = Some sv
          ∧ 0 <= v ∧ v <= sv ∧ sv <= 1250.
Proof.
  apply (Variance_le_SampleVariance (mkData 3 50 75 25 0 None 1250)).
  - unfold well_formed, I64.fits. cbn [Samples Mean Max Min Flags m2].
    repeat split; apply Z.leb_le || apply Z.ltb_lt; reflexivity.
  - apply Z.leb_le. reflexivity.
  - apply Z.ltb_lt. reflexivity.
Defined.

(** ** Sequences of samples *)

(** Induction over the calls a caller makes on an unchained
    accumulator: [P] relates the samples given so far to the record. *)
Lemma Updates_invariant
    (P : list Z → Data → Prop) (fuel : nat) (a : loc) (all : list Z) :
  (∀ seen r s rest,
     all = seen ++ s :: rest → Next r = None → P seen r →
     ∃ r', Update_body r s = Stepped r' ∧ P (seen ++ [s]) r') →
  ∀ samples seen (st : gmap loc Data) r,
    all = seen ++ samples → st !! a = Some r → Next r = None → P seen r →
    ∃ r', Updates (S fuel) a samples st = Finished (Return tt) (<[a := r']> st)
          ∧ Next r' = None ∧ P all r'.
Proof.
  intros Hstep. induction samples as [| s rest IH]; intros seen st r Hall Ha Hnext HP.
  - exists r. rewrite app_nil_r in Hall. subst all. cbn [Updates].
    by rewrite insert_id.
  - destruct (Hstep seen r s rest Hall Hnext HP) as (r1 & Hbody & HP1).
    assert (Hnext1 : Next r1 = None).
    { apply Update_body_Stepped in Hbody as (_ & _ & _ & _ & -> & _). done. }
    destruct (IH (seen ++ [s]) (<[a := r1]> st) r1) as (r' & Hrun & Hnext' & HP').
    + by rewrite <- app_assoc.
    + apply lookup_insert_eq.
    + done.
    + done.
    + exists r'. cbn [Updates].
      rewrite (Update_unchained fuel st a r r1 s Ha Hnext Hbody), Hrun.
      by rewrite insert_insert_eq.
Qed.

Lemma fits_between (lo hi z : Z) : I64.fits lo → I64.fits hi → lo <= z <= hi → I64.fits z.
Proof. unfold I64.fits. lia. Qed.

Lemma count_fits (k : nat) : Z.of_nat k < I64.max_int → I64.fits (Z.of_nat k + 1).
Proof. unfold I64.fits, I64.min_int, I64.max_int. lia. Qed.

(** The new mean when neither the count nor the difference overflows:
    it lies between the old mean and the sample. *)
Lemma Update_body_Mean (r : Data) (s : Z) (r' : Data) :
  Update_body r s = Stepped r' →
  I64.fits (Samples r + 1) → 0 < Samples r + 1 →
  I64.fits (Mean r) → I64.fits s → I64.fits (s - Mean r) →
  Mean r' = Mean r + Z.quot (s - Mean r) (Samples r + 1)
  ∧ (Mean r <= Mean r' <= s ∨ s <= Mean r' <= Mean r).
Proof.
  intros Hbody Hn Hpos Hmu Hs Hd.
  assert (Hq : - Z.abs (s - Mean r) <= Z.quot (s - Mean r) (Samples r + 1)
               <= Z.abs (s - Mean r)
               ∧ 0 <= (s - Mean r) * Z.quot (s - Mean r) (Samples r + 1)).
  { destruct (Z.le_gt_cases 0 (s - Mean r)) as [Hsign | Hsign].
    - pose proof (quot_bounds (s - Mean r) (Samples r + 1) ltac:(lia) Hsign).
      pose proof (Z.quot_pos (s - Mean r) (Samples r + 1) Hsign Hpos). nia.
    - pose proof (quot_bounds (- (s - Mean r)) (Samples r + 1) ltac:(lia) ltac:(lia)) as Hb.
      pose proof (Z.quot_pos (- (s - Mean r)) (Samples r + 1) ltac:(lia) Hpos) as Hp.
      rewrite Z.quot_opp_l in Hb, Hp by lia. nia. }
  assert (Hmean : Mean r' = Mean r + Z.quot (s - Mean r) (Samples r + 1)).
  { rewrite Update_body_eq in Hbody. cbn zeta in Hbody. unfold I64.quo in Hbody.
    destruct (I64.add (Samples r) 1 =? 0); [discriminate |]. injection Hbody as <-.
    cbn [Mean]. unfold I64.add, I64.sub.
    rewrite (wrap_fits _ Hn), (wrap_fits _ Hd).
    rewrite (wrap_fits (Z.quot _ _)) by (by apply quot_fits).
    apply wrap_fits.
    destruct (Z.le_gt_cases 0 (s - Mean r)); [apply (fits_between (Mean r) s) |
                                              apply (fits_between s (Mean r))];
      try done; nia. }
  split; [done |]. rewrite Hmean.
  destruct (Z.le_gt_cases 0 (s - Mean r)); [left | right]; nia.
Qed.

Lemma Update_body_repeated (k s : Z) :
  0 < k → I64.fits (k + 1) → I64.fits s →
  Update_body (mkData k s s s 0 None 0) s = Stepped (mkData (k + 1) s s s 0 None 0).
Proof.
  intros Hk Hn Hs. rewrite Update_body_eq. cbn [Samples Mean Max Min Flags Next m2].
  cbn zeta. unfold I64.quo, I64.add, I64.sub, I64.mul.
  rewrite (wrap_fits _ Hn), Z.sub_diag. change (I64.wrap 0) with 0.
  destruct (Z.eqb_spec k 0); [lia |]. destruct (Z.eqb_spec (k + 1) 0); [lia |].
  rewrite Z.ltb_irrefl, Z.gtb_ltb, Z.ltb_irrefl. cbn [orb].
  rewrite Z.quot_0_l by done. change (I64.wrap 0) with 0.
  rewrite Z.add_0_r, (wrap_fits s Hs), Z.sub_diag. reflexivity.
Qed.

(** X5. The same sample [s] given [N >= 1] times to a fresh accumulator
    leaves exactly Samples = N, Mean = Max = Min = s and m2 = 0: no
    rounding drift builds up, and both variances are 0. *)
Theorem Updates_constant_samples
    (fuel : nat) (st : gmap loc Data) (a : loc) (s : Z) (N : nat) :
  st !! a = Some zeroData → I64.fits s →
  (0 < N)%nat → Z.of_nat N <= I64.max_int →
  Updates (S fuel) a (repeat s N) st
    = Finished (Return tt) (<[a := mkData (Z.of_nat N) s s s 0 None 0]> st)
  ∧ Variance (mkData (Z.of_nat N) s s s 0 None 0) = Some 0
  ∧ SampleVariance (mkData (Z.of_nat N) s s s 0 None 0) = Some 0.
Proof.
  intros Ha Hs Hpos Hlen.
  pose (P := fun (seen : list Z) (r : Data) =>
    r = if decide (seen = [])
        then zeroData
        else mkData (Z.of_nat (length seen)) s s s 0 None 0).
  destruct (Updates_invariant P fuel a (repeat s N)) with
    (samples := repeat s N) (seen := @nil Z) (st := st) (r := zeroData)
    as (r' & Hrun & _ & HP'); try done.
  - intros seen r x rest Hall _ HP.
    assert (x = s) as ->.
    { apply (repeat_spec N s). rewrite Hall. apply in_or_app. right. by left. }
    assert (Hcount : Z.of_nat (length seen) < I64.max_int).
    { apply (f_equal (@length Z)) in Hall.
      rewrite repeat_length, length_app in Hall. cbn [length] in Hall. lia. }
    unfold P in HP |- *. destruct (decide (seen = [])) as [-> | Hne]; subst r.
    + exists (mkData 1 s s s 0 None 0). split; [by apply Update_body_first |].
      by destruct (decide ([] ++ [s] = [])).
    + exists (mkData (Z.of_nat (length seen) + 1) s s s 0 None 0). split.
      * apply Update_body_repeated; [| by apply count_fits | done].
        destruct seen; [done | cbn [length]; lia].
      * destruct (decide (seen ++ [s] = [])) as [Hnil | _];
          [by destruct seen |].
        rewrite length_app. cbn [length]. f_equal. lia.
  - assert (Hwf : well_formed (mkData (Z.of_nat N) s s s 0 None 0)).
    { unfold well_formed. cbn [Samples Mean Max Min Flags m2].
      repeat split; try apply Hs; try lia;
        revert Hlen; unfold I64.fits, I64.min_int, I64.max_int; lia. }
    split; [| split].
    + rewrite Hrun. unfold P in HP'. rewrite HP'.
      destruct (decide (repeat s N = [])) as [Hnil | _].
      * destruct N; [lia | discriminate].
      * by rewrite repeat_length.
    + rewrite (Variance_value _ Hwf). cbn [Samples m2].
      destruct (Z.of_nat N <=? 0); [done |]. by rewrite Z.quot_0_l by lia.
    + rewrite (SampleVariance_value _ Hwf). cbn [Samples m2].
      destruct (Z.leb_spec (Z.of_nat N) 1); [done |]. by rewrite Z.quot_0_l by lia.
Qed.

Lemma Updates_constant_samples_witness :
  Updates 1 1%positive (repeat 42 4) {[ 1%positive := zeroData ]}
    = Finished (Return tt)
        (<[1%positive := mkData 4 42 42 42 0 None 0]> {[ 1%positive := zeroData ]})
  ∧ Variance (mkData 4 42 42 42 0 None 0) = Some 0
  ∧ SampleVariance (mkData 4 42 42 42 0 None 0) = Some 0.
Proof.
  apply (Updates_constant_samples 0 {[ 1%positive := zeroData ]} 1%positive 42 4).
  - reflexivity.
  - split; apply Z.leb_le; reflexivity.
  - lia.
  - apply Z.leb_le. reflexivity.
Defined.

(** X6. Let the samples lie in a range no wider than an [int64] can
    measure (all non-negative durations do).  Then after every
    non-empty sequence of samples folded into a fresh accumulator the
    mean lies between the minimum and the maximum, which are the least
    and the greatest sample: truncation never carries the mean outside
    the data, and the mean itself never overflows, even if [m2] does. *)
Theorem Updates_mean_between_min_max
    (fuel : nat) (st : gmap loc Data) (a : loc) (samples : list Z) (lo hi : Z) :
  st !! a = Some zeroData →
  samples ≠ [] → Z.of_nat (length samples) <= I64.max_int →
  I64.fits lo → I64.fits hi → hi - lo <= I64.max_int →
  (∀ x, In x samples → lo <= x <= hi) →
  ∃ r, Updates (S fuel) a samples st = Finished (Return tt) (<[a := r]> st)
       ∧ is_minimum samples (Min r) ∧ is_maximum samples (Max r)
       ∧ Min r <= Mean r <= Max r.
Proof.
  intros Ha Hne Hlen Hlo Hhi Hspan Hrange.
  pose (P := fun (seen : list Z) (r : Data) =>
    has_seen seen r
    ∧ ((seen = [] ∧ r = zeroData) ∨ (seen ≠ [] ∧ Min r <= Mean r <= Max r))).
  destruct (Updates_invariant P fuel a samples) with
    (samples := samples) (seen := @nil Z) (st := st) (r := zeroData)
    as (r' & Hrun & _ & (_ & _ & Hmm) & Hmean); try done.
  - intros seen r s rest Hall _ [Hseen Hcase].
    assert (Hcount : Z.of_nat (length seen) < I64.max_int).
    { rewrite Hall, length_app in Hlen. cbn [length] in Hlen. lia. }
    assert (Hs : lo <= s <= hi).
    { apply Hrange. rewrite Hall. apply in_or_app. right. by left. }
    destruct (Update_body_has_seen seen r s Hseen Hcount) as (r1 & Hbody & Hseen1).
    exists r1. split; [done |]. split; [done |]. right.
    split; [by destruct seen |].
    destruct Hcase as [[-> ->] | [Hsome Hbetween]].
    + rewrite Update_body_first in Hbody; try done.
      * injection Hbody as <-. cbn. lia.
      * by apply (fits_between lo hi).
    + destruct Hseen as (_ & Hn & [-> | [[Hmin_in _] [Hmax_in _]]]); [done |].
      assert (Hmin : lo <= Min r <= hi).
      { apply Hrange. rewrite Hall. apply in_or_app. by left. }
      assert (Hmax : lo <= Max r <= hi).
      { apply Hrange. rewrite Hall. apply in_or_app. by left. }
      assert (Hlen1 : (0 < length seen)%nat) by (destruct seen; [done | cbn; lia]).
      destruct (Update_body_Mean r s r1 Hbody) as [_ Hside].
      * rewrite Hn. by apply count_fits.
      * lia.
      * apply (fits_between lo hi); [done | done | lia].
      * by apply (fits_between lo hi).
      * revert Hlo Hhi Hspan. unfold I64.fits, I64.min_int, I64.max_int. lia.
      * apply Update_body_Stepped in Hbody as (_ & _ & -> & -> & _).
        assert ((Samples r =? 0) = false) as -> by (apply Z.eqb_neq; lia).
        cbn [orb]. rewrite Z.gtb_ltb.
        destruct (Z.ltb_spec s (Min r)), (Z.ltb_spec (Max r) s); lia.
  - split; [| by left]. split; [done |]. split; [done | by left].
  - exists r'. split; [done |].
    destruct Hmm as [-> | [Hmin Hmax]]; [done |].
    destruct Hmean as [[-> _] | [_ Hbetween]]; done.
Qed.

Lemma Updates_mean_between_min_max_witness :
  ∃ r, Updates 1 1%positive [50; 25; 75] {[ 1%positive := zeroData ]}
         = Finished (Return tt) (<[1%positive := r]> {[ 1%positive := zeroData ]})
       ∧ is_minimum [50; 25; 75] (Min r) ∧ is_maximum [50; 25; 75] (Max r)
       ∧ Min r <= Mean r <= Max r.
Proof.
  apply (Updates_mean_between_min_max 0 {[ 1%positive := zeroData ]} 1%positive
           [50; 25; 75] 0 100).
  - reflexivity.
  - discriminate.
  - apply Z.leb_le. reflexivity.
  - split; apply Z.leb_le; reflexivity.
  - split; apply Z.leb_le; reflexivity.
  - apply Z.leb_le. reflexivity.
  - intros x [<- | [<- | [<- | []]]]; lia.
Defined.

(** Without overflow [Update] computes Welford's recurrence on the
    integers, the quotient truncated. *)
Lemma Update_body_exact (r : Data) (s : Z) :
  no_overflow r s → Samples r + 1 ≠ 0 →
  ∃ r', Update_body r s = Stepped r'
        ∧ Samples r' = Samples r + 1
        ∧ Mean r' = Mean r + Z.quot (s - Mean r) (Samples r + 1)
        ∧ m2 r' = m2 r + (s - Mean r) * (s - Mean r').
Proof.
  intros (Hn & Hd1 & Hq & Hmean & Hd2 & Hprod & Hsum) Hnz.
  rewrite Update_body_eq. cbn zeta. unfold I64.quo, I64.add, I64.sub, I64.mul.
  rewrite (wrap_fits _ Hn), (wrap_fits _ Hd1).
  destruct (Z.eqb_spec (Samples r + 1) 0); [done |].
  rewrite (wrap_fits _ Hq), (wrap_fits _ Hmean), (wrap_fits _ Hd2),
    (wrap_fits _ Hprod), (wrap_fits _ Hsum).
  eexists. split; [reflexivity |]. by cbn.
Qed.

(** X7. A bound under which nothing overflows.  If every sample lies
    in [0, B] and [N * B * B] is an [int64], then folding the [N]
    samples into a fresh accumulator leaves [0 <= Mean <= B] and
    [0 <= m2 <= N * B * B], and the variance returned lies in
    [0, B * B]. *)
Theorem Updates_within_bound
    (fuel : nat) (st : gmap loc Data) (a : loc) (samples : list Z) (B : Z) :
  st !! a = Some zeroData →
  (∀ x, In x samples → 0 <= x <= B) →
  0 <= B <= I64.max_int →
  Z.of_nat (length samples) <= I64.max_int →
  Z.of_nat (length samples) * (B * B) <= I64.max_int →
  ∃ r, Updates (S fuel) a samples st = Finished (Return tt) (<[a := r]> st)
       ∧ Samples r = Z.of_nat (length samples)
       ∧ 0 <= Mean r <= B
       ∧ 0 <= m2 r <= Z.of_nat (length samples) * (B * B)
       ∧ ∃ v, Variance r = Some v ∧ 0 <= v <= B * B.
Proof.
  intros Ha Hrange HB Hlen Hsq.
  pose (P := fun (seen : list Z) (r : Data) =>
    Samples r = Z.of_nat (length seen)
    ∧ 0 <= Mean r <= B
    ∧ 0 <= m2 r <= Z.of_nat (length seen) * (B * B)).
  destruct (Updates_invariant P fuel a samples) with
    (samples := samples) (seen := @nil Z) (st := st) (r := zeroData)
    as (r' & Hrun & _ & Hn & Hmean & Hm2); try done.
  - intros seen r s rest Hall _ (Hn & Hmean & Hm2).
    assert (Hcount : Z.of_nat (length seen) + 1 <= Z.of_nat (length samples)).
    { rewrite Hall, length_app. cbn [length]. lia. }
    assert (Hs : 0 <= s <= B).
    { apply Hrange. rewrite Hall. apply in_or_app. right. by left. }
    assert (HBB : B * B <= I64.max_int) by nia.
    assert (Hquot : (0 <= s - Mean r
                     ∧ 0 <= Z.quot (s - Mean r) (Samples r + 1) <= s - Mean r)
                    ∨ (s - Mean r < 0
                       ∧ s - Mean r <= Z.quot (s - Mean r) (Samples r + 1) <= 0)).
    { destruct (Z.le_gt_cases 0 (s - Mean r)) as [Hsign | Hsign]; [left | right].
      - pose proof (quot_bounds (s - Mean r) (Samples r + 1) ltac:(lia) Hsign).
        pose proof (Z.quot_pos (s - Mean r) (Samples r + 1) Hsign ltac:(lia)). lia.
      - pose proof (quot_bounds (- (s - Mean r)) (Samples r + 1) ltac:(lia) ltac:(lia)) as Hb.
        pose proof (Z.quot_pos (- (s - Mean r)) (Samples r + 1) ltac:(lia) ltac:(lia)) as Hp.
        rewrite Z.quot_opp_l in Hb, Hp by lia. lia. }
    set (q := Z.quot (s - Mean r) (Samples r + 1)) in *.
    assert (Hprod : 0 <= (s - Mean r) * (s - (Mean r + q)) <= B * B) by nia.
    destruct (Update_body_exact r s) as (r1 & Hbody & Hn1 & Hmean1 & Hm21).
    + unfold no_overflow. cbn zeta. fold q.
      unfold I64.fits, I64.min_int. unfold I64.max_int in *. repeat split; nia.
    + lia.
    + exists r1. split; [done |]. fold q in Hmean1. rewrite Hmean1 in Hm21.
      unfold P. rewrite Hn1, Hmean1, Hm21, length_app. cbn [length].
      split; [lia |]. split; [lia |]. nia.
  - unfold P. cbn. lia.
  - exists r'. split; [done |]. split; [done |]. split; [done |]. split; [done |].
    unfold Variance, Variance_with. rewrite Hn.
    destruct (Z.leb_spec (Z.of_nat (length samples)) 0).
    + exists 0. split; [done | nia].
    + exists (Z.quot (m2 r') (Z.of_nat (length samples))). split.
      * apply quo_positive_divisor; [| lia].
        unfold I64.fits, I64.min_int. unfold I64.max_int in *. lia.
      * split; [apply Z.quot_pos; lia | apply Z.quot_le_upper_bound; lia].
Qed.

Lemma Updates_within_bound_witness :
  ∃ r, Updates 1 1%positive [50; 25; 75] {[ 1%positive := zeroData ]}
         = Finished (Return tt) (<[1%positive := r]> {[ 1%positive := zeroData ]})
       ∧ Samples r = 3
       ∧ 0 <= Mean r <= 100
       ∧ 0 <= m2 r <= 3 * (100 * 100)
       ∧ ∃ v, Variance r = Some v ∧ 0 <= v <= 100 * 100.
Proof.
  apply (Updates_within_bound 0 {[ 1%positive := zeroData ]} 1%positive [50; 25; 75] 100).
  - reflexivity.
  - intros x [<- | [<- | [<- | []]]]; lia.
  - split; apply Z.leb_le; reflexivity.
  - apply Z.leb_le. reflexivity.
  - apply Z.leb_le. reflexivity.
Defined.

(** ** Chains *)

Lemma Update_chain_witness :
  ∃ st', Update 3 1%positive 50
           (<[1%positive := mkData 0 0 0 0 0 (Some 2%positive) 0]>
              (<[2%positive := mkData 1 10 10 10 0 (Some 3%positive) 0]>
                 {[ 3%positive := zeroData ]}))
         = Finished (Return tt) st'.
Proof.
  destruct (Update_chain 50 [1%positive; 2%positive; 3%positive]
              (<[1%positive := mkData 0 0 0 0 0 (Some 2%positive) 0]>
                 (<[2%positive := mkData 1 10 10 10 0 (Some 3%positive) 0]>
                    {[ 3%positive := zeroData ]}))
              1%positive) as (st' & Hrun & _).
  - eapply chain_link; [reflexivity | reflexivity |].
    eapply chain_link; [reflexivity | reflexivity |].
    eapply chain_last; reflexivity.
  - apply (bool_decide_unpack _). reflexivity.
  - intros x r Hx Hr.
    apply elem_of_cons in Hx as [-> | Hx]; [| apply elem_of_cons in Hx as [-> | Hx]];
      [| | apply list_elem_of_singleton in Hx as ->];
      cbv in Hr; injection Hr as <-; discriminate.
  - by exists st'.
Defined.



(** ** What an import writes *)

Lemma Data_fields_eq (d1 d2 : Data) :
  Samples d1 = Samples d2 → Mean d1 = Mean d2 → Max d1 = Max d2 → Min d1 = Min d2 →
  Flags d1 = Flags d2 → Next d1 = Next d2 → m2 d1 = m2 d2 → d1 = d2.
Proof. destruct d1, d2. cbn. by intros -> -> -> -> -> -> ->. Qed.

Lemma import_derived_basic (dm : dataMarshaled.t) (d : Data) (k : derived) :
  Mean (import_derived dm d k) = Mean d ∧ Max (import_derived dm d k) = Max d
  ∧ Min (import_derived dm d k) = Min d ∧ Next (import_derived dm d k) = Next d.
Proof.
  unfold import_derived. destruct (derived_field k dm); [| done].
  cbn zeta. by destruct (formula_applies k _).
Qed.

Lemma import_derived_m2 (dm : dataMarshaled.t) (d : Data) (k : derived) :
  m2 (import_derived dm d k)
  = match derived_field k dm with
    | Some v =>
        if formula_applies k (Samples d) then reconstructed k v (Samples d) else m2 d
    | None => m2 d
    end.
Proof.
  unfold import_derived. destruct (derived_field k dm); [| done].
  cbn zeta. cbn [Samples]. by destruct (formula_applies k _).
Qed.

(** The fields [toData] leaves, one by one. *)
Lemma toData_fields (dm : dataMarshaled.t) (d : Data) :
  Samples (toData dm d) = default (Samples d) (dataMarshaled.Samples dm)
  ∧ Mean (toData dm d) = default (Mean d) (dataMarshaled.Mean dm)
  ∧ Max (toData dm d) = default (Max d) (dataMarshaled.Max dm)
  ∧ Min (toData dm d) = default (Min d) (dataMarshaled.Min dm)
  ∧ Flags (toData dm d) = Z.lor (Flags d) (present_flags dm)
  ∧ Next (toData dm d) = Next d
  ∧ m2 (toData dm d)
    = imported_m2 dm (default (Samples d) (dataMarshaled.Samples dm)) (m2 d).
Proof.
  rewrite toData_refines. unfold toData_as_specified, preference. cbn [fold_left].
  repeat match goal with
         | |- _ ∧ _ => split
         end.
  - by rewrite !import_derived_Samples.
  - by rewrite !(proj1 (import_derived_basic _ _ _)).
  - by rewrite !(proj1 (proj2 (import_derived_basic _ _ _))).
  - by rewrite !(proj1 (proj2 (proj2 (import_derived_basic _ _ _)))).
  - rewrite !import_derived_Flags. unfold present_flags, preference. cbn [fold_left].
    cbn [import_basic Flags].
    destruct (derived_field sample_std_dev dm), (derived_field std_dev dm),
      (derived_field sample_variance dm), (derived_field variance dm);
      rewrite <- ?Z.lor_assoc, ?Z.lor_0_l, ?Z.lor_0_r; reflexivity.
  - by rewrite !(proj2 (proj2 (proj2 (import_derived_basic _ _ _)))).
  - rewrite !import_derived_m2, !import_derived_Samples.
    unfold imported_m2, preference. cbn [fold_left]. reflexivity.
Qed.

(** X10. An import never touches [Next] and never clears a flag that
    was set.  A record without any derived field leaves the flags and
    [m2] exactly as they were (also when it replaces the count), and
    the empty record changes nothing at all. *)
Theorem toData_keeps (dm : dataMarshaled.t) (d : Data) :
  Next (toData dm d) = Next d
  ∧ Z.land (Flags (toData dm d)) (Flags d) = Flags d
  ∧ (dataMarshaled.Variance dm = None → dataMarshaled.SampleVariance dm = None →
     dataMarshaled.StdDev dm = None → dataMarshaled.SampleStdDev dm = None →
     Flags (toData dm d) = Flags d ∧ m2 (toData dm d) = m2 d)
  ∧ toData dataMarshaled.empty d = d.
Proof.
  destruct (toData_fields dm d) as (_ & _ & _ & _ & Hflags & Hnext & Hm2).
  split; [done |]. split; [| split].
  - rewrite Hflags, Z.lor_comm. apply land_lor_absorb.
  - intros Hv Hsv Hsd Hssd. rewrite Hflags, Hm2.
    unfold present_flags, imported_m2, preference. cbn [fold_left derived_field].
    rewrite Hv, Hsv, Hsd, Hssd. by rewrite Z.lor_0_r.
  - destruct (toData_fields dataMarshaled.empty d) as (? & ? & ? & ? & Hf & ? & ?).
    apply Data_fields_eq; try done.
Qed.

Lemma toData_keeps_witness :
  Flags (toData (dataMarshaled.mk (Some 7) None None None None None None None)
           (mkData 3 50 75 25 5 (Some 2%positive) 1250)) = 5
  ∧ m2 (toData (dataMarshaled.mk (Some 7) None None None None None None None)
          (mkData 3 50 75 25 5 (Some 2%positive) 1250)) = 1250.
Proof.
  apply (toData_keeps (dataMarshaled.mk (Some 7) None None None None None None None)
           (mkData 3 50 75 25 5 (Some 2%positive) 1250)); reflexivity.
Defined.

Lemma imported_m2_idempotent (dm : dataMarshaled.t) (count m : Z) :
  imported_m2 dm count (imported_m2 dm count m) = imported_m2 dm count m.
Proof.
  unfold imported_m2, preference. cbn [fold_left].
  destruct (derived_field sample_std_dev dm), (derived_field std_dev dm),
    (derived_field sample_variance dm), (derived_field variance dm);
    cbn [formula_applies]; destruct (1 <? count); reflexivity.
Qed.

(** X11. Importing the same record a second time changes nothing
    more: [toData] is idempotent. *)
Theorem toData_idempotent (dm : dataMarshaled.t) (d : Data) :
  toData dm (toData dm d) = toData dm d.
Proof.
  destruct (toData_fields dm d) as (Hn & Hmu & Hmx & Hmn & Hfl & Hnx & Hm).
  destruct (toData_fields dm (toData dm d)) as (Hn' & Hmu' & Hmx' & Hmn' & Hfl' & Hnx' & Hm').
  apply Data_fields_eq.
  - rewrite Hn', Hn. by destruct (dataMarshaled.Samples dm).
  - rewrite Hmu', Hmu. by destruct (dataMarshaled.Mean dm).
  - rewrite Hmx', Hmx. by destruct (dataMarshaled.Max dm).
  - rewrite Hmn', Hmn. by destruct (dataMarshaled.Min dm).
  - rewrite Hfl', Hfl, <- Z.lor_assoc. by rewrite Z.lor_diag.
  - by rewrite Hnx'.
  - rewrite Hm', Hm, Hn.
    assert (default (default (Samples d) (dataMarshaled.Samples dm))
              (dataMarshaled.Samples dm)
            = default (Samples d) (dataMarshaled.Samples dm)) as ->
      by (by destruct (dataMarshaled.Samples dm)).
    apply imported_m2_idempotent.
Qed.

(** ** Export *)

Lemma SampleVariance_returns (d : Data) : well_formed d → ∃ sv, SampleVariance d = Some sv.
Proof. intros Hwf. rewrite (SampleVariance_value d Hwf). by eexists. Qed.

(** On a well-formed accumulator [marshaler] does not panic, and the
    record it builds is this one. *)
Lemma marshaler_fields (unrepresentable : PrimFloat.float → Z) (d : Data) :
  well_formed d →
  marshaler unrepresentable d
  = Some (dataMarshaled.mk (Some (Samples d)) (Some (Mean d)) (Some (Max d)) (Some (Min d))
            (if requested d MarshalFlags.Variance then Variance d else None)
            (if requested d MarshalFlags.SampleVariance then SampleVariance d else None)
            (if requested d MarshalFlags.StdDev then StdDev unrepresentable d else None)
            (if requested d MarshalFlags.SampleStdDev
             then SampleStdDev unrepresentable d else None)).
Proof.
  intros Hwf.
  destruct (Variance_returns d) as [v Hv].
  destruct (SampleVariance_returns d Hwf) as [sv Hsv].
  assert (Hsd : StdDev unrepresentable d = Some (sqrt_duration unrepresentable v))
    by (unfold StdDev; by rewrite Hv).
  assert (Hssd : SampleStdDev unrepresentable d = Some (sqrt_duration unrepresentable sv))
    by (unfold SampleStdDev; by rewrite Hsv).
  unfold marshaler. rewrite Hv, Hsv, Hsd, Hssd.
  destruct (requested d MarshalFlags.Variance), (requested d MarshalFlags.SampleVariance),
    (requested d MarshalFlags.StdDev), (requested d MarshalFlags.SampleStdDev);
    reflexivity.
Qed.

Lemma requested_spec (d : Data) (flag : Z) :
  requested d flag = true ↔ Flags d = 0 ∨ Z.land (Flags d) flag ≠ 0.
Proof.
  unfold requested. rewrite orb_true_iff, negb_true_iff, Z.eqb_eq, Z.eqb_neq. tauto.
Qed.

(** What an import of the exported record into a fresh accumulator
    gives when the record carries the variance. *)
Lemma export_import_variance
    (unrepresentable : PrimFloat.float → Z) (d : Data) (obj : dataMarshaled.t) :
  well_formed d → 0 < Samples d → 0 <= m2 d →
  Flags d = 0 ∨ Z.land (Flags d) MarshalFlags.Variance ≠ 0 →
  marshaler unrepresentable d = Some obj →
  Samples (toData obj zeroData) = Samples d
  ∧ Mean (toData obj zeroData) = Mean d
  ∧ Max (toData obj zeroData) = Max d
  ∧ Min (toData obj zeroData) = Min d
  ∧ m2 d - Samples d < m2 (toData obj zeroData) <= m2 d
  ∧ Variance (toData obj zeroData) = Variance d.
Proof.
  intros Hwf Hn Hm Hreq Hobj.
  rewrite (marshaler_fields unrepresentable d Hwf) in Hobj. injection Hobj as <-.
  apply requested_spec in Hreq.
  match goal with |- context [toData ?o zeroData] => set (obj := o) end.
  destruct (toData_fields obj zeroData) as (Hn' & Hmu' & Hmx' & Hmn' & _ & _ & Hm').
  cbn [default from_option id dataMarshaled.Samples dataMarshaled.Mean dataMarshaled.Max
       dataMarshaled.Min obj m2 zeroData] in Hn', Hmu', Hmx', Hmn', Hm'.
  assert (Hquot : 0 <= Z.quot (m2 d) (Samples d) * Samples d <= m2 d
                  ∧ m2 d - Samples d < Z.quot (m2 d) (Samples d) * Samples d).
  { pose proof (Z.mul_quot_le (m2 d) (Samples d) Hm ltac:(lia)).
    pose proof (Z.mul_succ_quot_gt (m2 d) (Samples d) Hm Hn).
    pose proof (Z.quot_pos (m2 d) (Samples d) Hm Hn). nia. }
  assert (Hm2 : m2 (toData obj zeroData) = Z.quot (m2 d) (Samples d) * Samples d).
  { rewrite Hm'. unfold imported_m2, preference. cbn [fold_left].
    cbn [derived_field dataMarshaled.Variance obj]. rewrite Hreq, (Variance_value d Hwf).
    destruct (Z.leb_spec (Samples d) 0); [lia |].
    cbn [formula_applies reconstructed]. unfold I64.mul. apply wrap_fits.
    destruct Hwf as (_ & _ & _ & _ & _ & Hfm).
    revert Hfm Hquot. unfold I64.fits, I64.min_int, I64.max_int. lia. }
  split; [done |]. split; [done |]. split; [done |]. split; [done |].
  split; [rewrite Hm2; lia |].
  rewrite (Variance_value d Hwf). unfold Variance, Variance_with. rewrite Hn', Hm2.
  destruct (Z.leb_spec (Samples d) 0); [lia |].
  rewrite quo_positive_divisor; [by rewrite Z.quot_mul by lia | | done].
  destruct Hwf as (_ & _ & _ & _ & _ & Hfm).
  revert Hfm Hquot. unfold I64.fits, I64.min_int, I64.max_int. lia.
Qed.



(** X13. Round trip through JSON.  Let a well-formed accumulator hold
    at least one sample and [m2 >= 0], and let the variance be among
    the exported fields.  With an encoder and a decoder that give back
    the record they were given, and a text other than [null],
    [UnmarshalJSON] of what [MarshalJSON] produced restores a fresh
    accumulator in the same way as for YAML: Samples, Mean, Max, Min
    and [Variance()] are the same, and [m2] comes back rounded down to a
    multiple of Samples, so it loses less than Samples. *)
Theorem MarshalJSON_UnmarshalJSON_variance {error : Type}
    (unrepresentable : PrimFloat.float → Z)
    (json_Marshal : dataMarshaled.t → string * option error)
    (json_Unmarshal : string → dataMarshaled.t → dataMarshaled.t * option error)
    (d : Data) (text : string) :
  well_formed d → 0 < Samples d → 0 <= m2 d →
  Flags d = 0 ∨ Z.land (Flags d) MarshalFlags.Variance ≠ 0 →
  (∀ obj, marshaler unrepresentable d = Some obj →
          json_Marshal obj = (text, None)
          ∧ json_Unmarshal text dataMarshaled.empty = (obj, None)) →
  text ≠ "null"%string →
  ∃ d',
    MarshalJSON unrepresentable json_Marshal d = Some (text, None)
    ∧ UnmarshalJSON json_Unmarshal text zeroData = (d', None)
    ∧ Samples d' = Samples d ∧ Mean d' = Mean d ∧ Max d' = Max d ∧ Min d' = Min d
    ∧ m2 d - Samples d < m2 d' <= m2 d
    ∧ Variance d' = Variance d.
Proof.
  intros Hwf Hn Hm Hreq Hcodec Htext.
  pose proof (marshaler_fields unrepresentable d Hwf) as Hobj.
  destruct (Hcodec _ Hobj) as [Henc Hdec].
  eexists. unfold MarshalJSON, UnmarshalJSON. rewrite Hobj. cbn [mbind option_bind].
  rewrite Henc. destruct (String.eqb_spec text "null"); [done |]. rewrite Hdec.
  split; [reflexivity |]. split; [reflexivity |].
  by apply (export_import_variance unrepresentable d).
Qed.

Lemma MarshalJSON_UnmarshalJSON_variance_witness :
  ∃ d',
    MarshalJSON (fun _ => 0) (error := unit) (fun _ => ("{...}"%string, None))
      (mkData 3 50 75 25 1 None 1250) = Some ("{...}"%string, None)
    ∧ UnmarshalJSON (error := unit)
        (fun _ _ => (dataMarshaled.mk (Some 3) (Some 50) (Some 75) (Some 25)
                       (Some 416) None None None, None))
        "{...}" zeroData = (d', None)
    ∧ Samples d' = 3 ∧ Mean d' = 50 ∧ Max d' = 75 ∧ Min d' = 25
    ∧ 1250 - 3 < m2 d' <= 1250
    ∧ Variance d' = Variance (mkData 3 50 75 25 1 None 1250).
Proof.
  apply (MarshalJSON_UnmarshalJSON_variance (error := unit) (fun _ => 0)
           (fun _ => ("{...}"%string, None))
           (fun _ _ => (dataMarshaled.mk (Some 3) (Some 50) (Some 75) (Some 25)
                          (Some 416) None None None, None))
           (mkData 3 50 75 25 1 None 1250) "{...}").
  - unfold well_formed, I64.fits. cbn [Samples Mean Max Min Flags m2].
    repeat split; apply Z.leb_le || apply Z.ltb_lt; reflexivity.
  - apply Z.ltb_lt. reflexivity.
  - apply Z.leb_le. reflexivity.
  - right. discriminate.
  - intros obj Hobj. vm_compute in Hobj. injection Hobj as <-. by split.
  - discriminate.
Defined.

Lemma exported_present_flags (unrepresentable : PrimFloat.float → Z) (d : Data) :
  well_formed d →
  present_flags
    (dataMarshaled.mk (Some (Samples d)) (Some (Mean d)) (Some (Max d)) (Some (Min d))
       (if requested d MarshalFlags.Variance then Variance d else None)
       (if requested d MarshalFlags.SampleVariance then SampleVariance d else None)
       (if requested d MarshalFlags.StdDev then StdDev unrepresentable d else None)
       (if requested d MarshalFlags.SampleStdDev
        then SampleStdDev unrepresentable d else None))
  = Z.lor (Z.lor (Z.lor (if requested d MarshalFlags.SampleStdDev then 8 else 0)
                        (if requested d MarshalFlags.StdDev then 4 else 0))
                 (if requested d MarshalFlags.SampleVariance then 2 else 0))
          (if requested d MarshalFlags.Variance then 1 else 0).
Proof.
  intros Hwf.
  destruct (Variance_returns d) as [v Hv].
  destruct (SampleVariance_returns d Hwf) as [sv Hsv].
  unfold StdDev, SampleStdDev. rewrite Hv, Hsv.
  unfold present_flags, preference. cbn [fold_left derived_field].
  cbn [dataMarshaled.Variance dataMarshaled.SampleVariance dataMarshaled.StdDev
       dataMarshaled.SampleStdDev].
  destruct (requested d MarshalFlags.Variance), (requested d MarshalFlags.SampleVariance),
    (requested d MarshalFlags.StdDev), (requested d MarshalFlags.SampleStdDev);
    reflexivity.
Qed.

(** X14. The choice of exported fields survives a round trip.  For
    flags among the four defined bits, the accumulator restored from
    the exported record asks for the same computed fields again: its
    flags are those of the original, or all four where the original
    had none set (which means all). *)
Theorem MarshalYAML_UnmarshalYAML_Flags {error : Type}
    (unrepresentable : PrimFloat.float → Z) (d : Data) :
  well_formed d → 0 <= Flags d <= 15 →
  ∃ obj d',
    MarshalYAML unrepresentable (error := error) d = Some (obj, None)
    ∧ UnmarshalYAML (error := error) (fun _ => (obj, None)) zeroData = (d', None)
    ∧ Flags d' = (if Flags d =? 0 then 15 else Flags d)
    ∧ requested d' MarshalFlags.Variance = requested d MarshalFlags.Variance
    ∧ requested d' MarshalFlags.SampleVariance = requested d MarshalFlags.SampleVariance
    ∧ requested d' MarshalFlags.StdDev = requested d MarshalFlags.StdDev
    ∧ requested d' MarshalFlags.SampleStdDev = requested d MarshalFlags.SampleStdDev.
Proof.
  intros Hwf Hfl.
  pose proof (marshaler_fields unrepresentable d Hwf) as Hobj.
  pose proof (exported_present_flags unrepresentable d Hwf) as Hpresent.
  match type of Hobj with _ = Some ?o => set (obj := o) in Hobj, Hpresent end.
  exists obj, (toData obj zeroData). unfold MarshalYAML, UnmarshalYAML. rewrite Hobj.
  split; [reflexivity |]. split; [reflexivity |].
  destruct (toData_fields obj zeroData) as (_ & _ & _ & _ & Hflags & _).
  rewrite Hpresent in Hflags. cbn [Flags zeroData] in Hflags. rewrite Z.lor_0_l in Hflags.
  assert (Hreq : ∀ f, requested (toData obj zeroData) f
                      = (Flags (toData obj zeroData) =? 0)
                        || negb (Z.land (Flags (toData obj zeroData)) f =? 0))
    by reflexivity.
  rewrite !Hreq, Hflags. clear Hreq Hflags Hpresent Hobj. unfold requested.
  assert (Hcases : Flags d = 0 ∨ Flags d = 1 ∨ Flags d = 2 ∨ Flags d = 3
                   ∨ Flags d = 4 ∨ Flags d = 5 ∨ Flags d = 6 ∨ Flags d = 7
                   ∨ Flags d = 8 ∨ Flags d = 9 ∨ Flags d = 10 ∨ Flags d = 11
                   ∨ Flags d = 12 ∨ Flags d = 13 ∨ Flags d = 14 ∨ Flags d = 15) by lia.
  repeat (destruct Hcases as [-> | Hcases]; [by vm_compute |]).
  rewrite Hcases. by vm_compute.
Qed.

Lemma MarshalYAML_UnmarshalYAML_Flags_witness :
  ∃ obj d',
    MarshalYAML (fun _ => 0) (error := unit) (mkData 3 50 75 25 6 None 1250)
      = Some (obj, None)
    ∧ UnmarshalYAML (error := unit) (fun _ => (obj, None)) zeroData = (d', None)
    ∧ Flags d' = 6
    ∧ requested d' MarshalFlags.Variance = false
    ∧ requested d' MarshalFlags.SampleVariance = true
    ∧ requested d' MarshalFlags.StdDev = true
    ∧ requested d' MarshalFlags.SampleStdDev = false.
Proof.
  apply (MarshalYAML_UnmarshalYAML_Flags (error := unit) (fun _ => 0)
           (mkData 3 50 75 25 6 None 1250)).
  - unfold well_formed, I64.fits. cbn [Samples Mean Max Min Flags m2].
    repeat split; apply Z.leb_le || apply Z.ltb_lt; reflexivity.
  - split; apply Z.leb_le; reflexivity.
Defined.

(** X15. Export never panics on a well-formed accumulator, whatever
    its count.  Samples, Mean, Max and Min are always in the record; a
    computed field is in it exactly when [Flags] is 0 or has the
    field's bit, and then holds what the corresponding method
    returns. *)
Theorem marshaler_exports (unrepresentable : PrimFloat.float → Z) (d : Data) :
  well_formed d →
  ∃ obj, marshaler unrepresentable d = Some obj
    ∧ dataMarshaled.Samples obj = Some (Samples d)
    ∧ dataMarshaled.Mean obj = Some (Mean d)
    ∧ dataMarshaled.Max obj = Some (Max d)
    ∧ dataMarshaled.Min obj = Some (Min d)
    ∧ (is_Some (dataMarshaled.Variance obj)
       ↔ Flags d = 0 ∨ Z.land (Flags d) MarshalFlags.Variance ≠ 0)
    ∧ (is_Some (dataMarshaled.SampleVariance obj)
       ↔ Flags d = 0 ∨ Z.land (Flags d) MarshalFlags.SampleVariance ≠ 0)
    ∧ (is_Some (dataMarshaled.StdDev obj)
       ↔ Flags d = 0 ∨ Z.land (Flags d) MarshalFlags.StdDev ≠ 0)
    ∧ (is_Some (dataMarshaled.SampleStdDev obj)
       ↔ Flags d = 0 ∨ Z.land (Flags d) MarshalFlags.SampleStdDev ≠ 0)
    ∧ (∀ v, dataMarshaled.Variance obj = Some v → Variance d = Some v)
    ∧ (∀ v, dataMarshaled.SampleVariance obj = Some v → SampleVariance d = Some v)
    ∧ (∀ v, dataMarshaled.StdDev obj = Some v → StdDev unrepresentable d = Some v)
    ∧ (∀ v, dataMarshaled.SampleStdDev obj = Some v
            → SampleStdDev unrepresentable d = Some v).
Proof.
  intros Hwf. eexists. split; [by apply marshaler_fields |].
  cbn [dataMarshaled.Samples dataMarshaled.Mean dataMarshaled.Max dataMarshaled.Min
       dataMarshaled.Variance dataMarshaled.SampleVariance dataMarshaled.StdDev
       dataMarshaled.SampleStdDev].
  destruct (Variance_returns d) as [v Hv].
  destruct (SampleVariance_returns d Hwf) as [sv Hsv].
  unfold StdDev, SampleStdDev. rewrite Hv, Hsv. rewrite <- !requested_spec.
  repeat match goal with |- _ ∧ _ => split end; try done;
    match goal with
    | |- is_Some _ ↔ _ =>
        destruct (requested d _); split;
          first [ done | by intros [? [=]] | by eexists | discriminate ]
    | |- ∀ _, _ => destruct (requested d _); intros ? H; (exact H || discriminate H)
    end.
Qed.

Lemma marshaler_exports_witness :
  ∃ obj, marshaler (fun _ => 0) (mkData (-2) 50 75 25 3 None 1250) = Some obj
         ∧ dataMarshaled.Variance obj = Some 0
         ∧ dataMarshaled.StdDev obj = None.
Proof.
  assert (Hwf : well_formed (mkData (-2) 50 75 25 3 None 1250)).
  { unfold well_formed, I64.fits. cbn [Samples Mean Max Min Flags m2].
    repeat split; apply Z.leb_le || apply Z.ltb_lt; reflexivity. }
  destruct (marshaler_exports (fun _ => 0) (mkData (-2) 50 75 25 3 None 1250) Hwf)
    as (obj & Hobj & _).
  exists obj. split; [exact Hobj |].
  vm_compute in Hobj. injection Hobj as <-. by split.
Defined.

(** X16. When only the sample variance is exported (Flags is exactly
    the SampleVariance bit), it is the sample variance that survives
    the round trip, for every well-formed accumulator, whatever its
    count and the sign of [m2]: the restored accumulator returns the
    same [SampleVariance()] and asks for the same single field.  Above
    one sample [m2] comes back as [(m2 / (Samples - 1)) * (Samples - 1)],
    the quotient truncated: the multiple of [Samples - 1] next to [m2]
    on the side of zero, less than [Samples - 1] away.  Up to one
    sample the formula is skipped and [m2] stays 0. *)
Theorem MarshalYAML_UnmarshalYAML_sample_variance {error : Type}
    (unrepresentable : PrimFloat.float → Z) (d : Data) :
  well_formed d → Flags d = MarshalFlags.SampleVariance →
  ∃ obj d',
    MarshalYAML unrepresentable (error := error) d = Some (obj, None)
    ∧ UnmarshalYAML (error := error) (fun _ => (obj, None)) zeroData = (d', None)
    ∧ dataMarshaled.Variance obj = None
    ∧ dataMarshaled.StdDev obj = None
    ∧ dataMarshaled.SampleStdDev obj = None
    ∧ Flags d' = MarshalFlags.SampleVariance
    ∧ SampleVariance d' = SampleVariance d
    ∧ (1 < Samples d →
       m2 d' = Z.quot (m2 d) (Samples d - 1) * (Samples d - 1)
       ∧ Z.abs (m2 d') <= Z.abs (m2 d)
       ∧ Z.abs (m2 d - m2 d') < Samples d - 1
       ∧ 0 <= m2 d * m2 d')
    ∧ (Samples d <= 1 → m2 d' = 0).
Proof.
  intros Hwf Hfl.
  pose proof (marshaler_fields unrepresentable d Hwf) as Hobj.
  assert (requested d MarshalFlags.Variance = false) as Hv
    by (unfold requested; by rewrite Hfl).
  assert (requested d MarshalFlags.SampleVariance = true) as Hsv
    by (unfold requested; by rewrite Hfl).
  assert (requested d MarshalFlags.StdDev = false) as Hsd
    by (unfold requested; by rewrite Hfl).
  assert (requested d MarshalFlags.SampleStdDev = false) as Hssd
    by (unfold requested; by rewrite Hfl).
  rewrite Hv, Hsv, Hsd, Hssd, (SampleVariance_value d Hwf) in Hobj.
  match type of Hobj with _ = Some ?o => set (obj := o) in Hobj end.
  exists obj, (toData obj zeroData). unfold MarshalYAML, UnmarshalYAML. rewrite Hobj.
  split; [reflexivity |]. split; [reflexivity |]. split; [reflexivity |].
  split; [reflexivity |]. split; [reflexivity |].
  destruct (toData_fields obj zeroData) as (Hn' & _ & _ & _ & Hflags & _ & Hm').
  cbn [default from_option id dataMarshaled.Samples obj m2 Flags zeroData] in Hn', Hflags, Hm'.
  split; [by rewrite Hflags |].
  unfold imported_m2, preference in Hm'.
  cbn [fold_left derived_field dataMarshaled.Variance dataMarshaled.SampleVariance
       dataMarshaled.StdDev dataMarshaled.SampleStdDev obj formula_applies reconstructed]
    in Hm'.
  rewrite (SampleVariance_value d Hwf).
  unfold SampleVariance, SampleVariance_with. rewrite Hn', Hm'.
  destruct Hwf as (Hfn & _ & _ & _ & _ & Hfm).
  destruct (Z.leb_spec (Samples d) 1) as [Hfew | Hmany].
  - destruct (Z.ltb_spec 1 (Samples d)); [lia |].
    split; [done |]. split; [lia | done].
  - destruct (Z.ltb_spec 1 (Samples d)); [| lia].
    rewrite SampleVariance_divisor by done.
    set (back := Z.quot (m2 d) (Samples d - 1) * (Samples d - 1)).
    assert (Hquot : (0 <= m2 d → 0 <= back <= m2 d ∧ m2 d - back < Samples d - 1)
                    ∧ (m2 d < 0 → m2 d <= back <= 0 ∧ back - m2 d < Samples d - 1)).
    { unfold back. pose proof (Z.quot_rem' (m2 d) (Samples d - 1)) as Hqr. split; intros Hsign.
      - pose proof (Z.rem_bound_pos (m2 d) (Samples d - 1) Hsign ltac:(lia)).
        pose proof (Z.quot_pos (m2 d) (Samples d - 1) Hsign ltac:(lia)). nia.
      - pose proof (Z.rem_bound_pos_neg (m2 d) (Samples d - 1) ltac:(lia) ltac:(lia)) as Hr.
        assert (Hq : Z.quot (m2 d) (Samples d - 1) <= 0).
        { rewrite <- (Z.opp_involutive (m2 d)), Z.quot_opp_l by lia.
          pose proof (Z.quot_pos (- m2 d) (Samples d - 1) ltac:(lia) ltac:(lia)). lia. }
        nia. }
    assert (Hfits : I64.fits back).
    { revert Hfm Hquot. unfold I64.fits, I64.min_int, I64.max_int. lia. }
    assert (Hexact : I64.mul (Z.quot (m2 d) (Samples d - 1)) (Samples d - 1) = back)
      by (by apply wrap_fits).
    rewrite Hexact. split; [| split; [| lia]].
    + rewrite quo_positive_divisor; [| done | lia].
      unfold back. by rewrite Z.quot_mul by lia.
    + intros _. split; [done |]. split; [lia |]. split; [lia | nia].
Qed.

Lemma MarshalYAML_UnmarshalYAML_sample_variance_witness :
  ∃ obj d',
    MarshalYAML (fun _ => 0) (error := unit) (mkData 3 50 75 25 2 None (-3))
      = Some (obj, None)
    ∧ UnmarshalYAML (error := unit) (fun _ => (obj, None)) zeroData = (d', None)
    ∧ dataMarshaled.Variance obj = None
    ∧ dataMarshaled.StdDev obj = None
    ∧ dataMarshaled.SampleStdDev obj = None
    ∧ Flags d' = 2
    ∧ SampleVariance d' = SampleVariance (mkData 3 50 75 25 2 None (-3))
    ∧ (1 < 3 →
       m2 d' = Z.quot (-3) (3 - 1) * (3 - 1)
       ∧ Z.abs (m2 d') <= Z.abs (-3)
       ∧ Z.abs (-3 - m2 d') < 3 - 1
       ∧ 0 <= -3 * m2 d')
    ∧ (3 <= 1 → m2 d' = 0).
Proof.
  apply (MarshalYAML_UnmarshalYAML_sample_variance (error := unit) (fun _ => 0)
           (mkData 3 50 75 25 2 None (-3))).
  - unfold well_formed, I64.fits. cbn [Samples Mean Max Min Flags m2].
    repeat split; apply Z.leb_le || apply Z.ltb_lt; reflexivity.
  - reflexivity.
Defined.

(** ** Timing a call *)

(** X17. Timing a call that returns, with an accumulator that holds no
    sample yet and is not chained: [TimeIt] returns the elapsed time,
    and the accumulator then holds one sample whose mean, maximum and
    minimum are that very duration; the rest of the store and the
    environment are as the call left them. *)
Theorem TimeIt_first_sample {Env Time : Type}
    (time_Now : Env → Time) (time_Since : Time → Env → Z)
    (fuel : nat) (d : loc) (fn : World Env → outcome (World Env) unit)
    (w w1 : World Env) (r : Data) :
  fn w = Finished (Return tt) w1 →
  store w1 !! d = Some r → Next r = None → Samples r = 0 → I64.fits (m2 r) →
  I64.fits (time_Since (time_Now (env w)) (env w1)) →
  TimeIt time_Now time_Since (S fuel) d fn w
  = Finished (Return (time_Since (time_Now (env w)) (env w1)))
      (mkWorld
         (<[d := mkData 1 (time_Since (time_Now (env w)) (env w1))
                   (time_Since (time_Now (env w)) (env w1))
                   (time_Since (time_Now (env w)) (env w1))
                   (Flags r) None (m2 r)]> (store w1))
         (env w1)).
Proof.
  intros Hfn Hd Hnext Hn Hm Helapsed.
  rewrite TimeIt_outcomes, Hfn. cbn zeta.
  rewrite (Update_unchained fuel (store w1) d r _ _ Hd Hnext
             (Update_body_first r _ Hn Helapsed Hm)).
  by rewrite Hnext.
Qed.

Lemma TimeIt_first_sample_witness :
  TimeIt (fun clock : Z => clock) (fun start clock => clock - start) 1 1%positive
    (fun w => Finished (Return tt) (mkWorld (store w) (env w + 100)))
    (mkWorld {[ 1%positive := zeroData ]} 1000)
  = Finished (Return 100)
      (mkWorld (<[1%positive := mkData 1 100 100 100 0 None 0]> {[ 1%positive := zeroData ]})
         1100).
Proof.
  assert (Hfits : ∀ z, (I64.min_int <=? z) && (z <=? I64.max_int) = true → I64.fits z).
  { intros z [H1 H2]%andb_prop. split; by apply Z.leb_le. }
  exact (TimeIt_first_sample (fun clock : Z => clock) (fun start clock => clock - start)
           0 1%positive
           (fun w => Finished (Return tt) (mkWorld (store w) (env w + 100)))
           (mkWorld {[ 1%positive := zeroData ]} 1000)
           (mkWorld {[ 1%positive := zeroData ]} 1100) zeroData
           eq_refl eq_refl eq_refl eq_refl (Hfits 0 eq_refl) (Hfits 100 eq_refl)).
Defined.

(** X18. When the accumulator's count is -1 as the timed call ends,
    the deferred [Update] panics: [TimeIt] leaves with a division by
    zero whether the call returned or panicked (its own panic is
    replaced), and the accumulator is left with the count 0 and its
    old mean and [m2]. *)
Theorem TimeIt_divide_by_zero {Env Time : Type}
    (time_Now : Env → Time) (time_Since : Time → Env → Z)
    (fuel : nat) (d : loc) (fn : World Env → outcome (World Env) unit)
    (w w1 : World Env) (e : exit unit) (r : Data) :
  fn w = Finished e w1 →
  store w1 !! d = Some r → Samples r = -1 →
  ∃ r', TimeIt time_Now time_Since (S fuel) d fn w
          = Finished (Panicking DivideByZero) (mkWorld (<[d := r']> (store w1)) (env w1))
        ∧ Samples r' = 0 ∧ Mean r' = Mean r ∧ m2 r' = m2 r.
Proof.
  intros Hfn Hd Hminus.
  destruct (Update_body r (time_Since (time_Now (env w)) (env w1))) as [r' | r'] eqn:E.
  - apply Update_body_Stepped in E as (Hnz & _). rewrite Hminus in Hnz. by destruct Hnz.
  - exists r'. rewrite TimeIt_outcomes, Hfn. cbn zeta. cbn [Update]. rewrite Hd, E.
    split; [done |].
    pose proof (Update_body_DivideFault _ _ _ E) as (_ & Hmean & Hm2 & _).
    rewrite Update_body_eq, Hminus in E. cbn zeta in E. unfold I64.quo in E.
    change (I64.add (-1) 1) with 0 in E. cbn [Z.eqb] in E. injection E as <-.
    by cbn.
Qed.

Lemma TimeIt_divide_by_zero_witness :
  ∃ r', TimeIt (fun clock : Z => clock) (fun start clock => clock - start) 1 1%positive
          (fun w => Finished (Panicking (Raised 7)) (mkWorld (store w) (env w + 100)))
          (mkWorld {[ 1%positive := mkData (-1) 50 75 25 0 None 1250 ]} 1000)
        = Finished (Panicking DivideByZero)
            (mkWorld (<[1%positive := r']> {[ 1%positive := mkData (-1) 50 75 25 0 None 1250 ]})
               1100)
        ∧ Samples r' = 0 ∧ Mean r' = 50 ∧ m2 r' = 1250.
Proof.
  exact (TimeIt_divide_by_zero (fun clock : Z => clock) (fun start clock => clock - start)
           0 1%positive
           (fun w => Finished (Panicking (Raised 7)) (mkWorld (store w) (env w + 100)))
           (mkWorld {[ 1%positive := mkData (-1) 50 75 25 0 None 1250 ]} 1000)
           (mkWorld {[ 1%positive := mkData (-1) 50 75 25 0 None 1250 ]} 1100)
           (Panicking (Raised 7)) (mkData (-1) 50 75 25 0 None 1250)
           eq_refl eq_refl eq_refl).
Defined.

(** ** The order of an import *)

(** Whatever fields a record carries, the [m2] an import leaves is
    that of the last formula, in the order sample_std_dev, std_dev,
    sample_variance, variance, whose field is present and which
    applies; if there is none, [m2] is kept. *)
Lemma toData_last_applied (dm : dataMarshaled.t) (d : Data) :
  let n := Samples (toData dm d) in
  let from_sample_std_dev :=
    match dataMarshaled.SampleStdDev dm with
    | Some x => if n >? 1 then I64.mul (I64.mul x x) (I64.sub n 1) else m2 d
    | None => m2 d
    end in
  let from_std_dev :=
    match dataMarshaled.StdDev dm with
    | Some x => I64.mul (I64.mul x x) n
    | None => from_sample_std_dev
    end in
  let from_sample_variance :=
    match dataMarshaled.SampleVariance dm with
    | Some x => if n >? 1 then I64.mul x (I64.sub n 1) else from_std_dev
    | None => from_std_dev
    end in
  m2 (toData dm d)
  = match dataMarshaled.Variance dm with
    | Some x => I64.mul x n
    | None => from_sample_variance
    end.
Proof.
  destruct (toData_fields dm d) as (Hn & _ & _ & _ & _ & _ & Hm).
  cbn zeta. rewrite Hm, Hn. unfold imported_m2, preference.
  cbn [fold_left derived_field formula_applies reconstructed].
  rewrite Z.gtb_ltb.
  destruct (dataMarshaled.SampleStdDev dm), (dataMarshaled.StdDev dm),
    (dataMarshaled.SampleVariance dm), (dataMarshaled.Variance dm);
    destruct (1 <? default (Samples d) (dataMarshaled.Samples dm)); reflexivity.
Qed.

(** C3. Every import goes through the reconstruction formulas in the
    order sample_std_dev, std_dev, sample_variance, variance, each
    present field setting its flag bit and overwriting [m2], the first
    and the third only when [Samples > 1]: [toData] is that ordered
    pass for every record, and the [m2] it leaves is that of the last
    present field whose formula applies.  So a record with all four
    derived fields ends with [m2] = variance times [Samples] and all
    four flag bits, whether or not a formula was skipped.  For
    samples=3, mean=50, max=75, min=25, variance=416,
    sample_variance=625, std_dev=20, sample_std_dev=25, which is what
    an accumulator with [m2 = 1250] exports, [m2] ends as 1248.  The
    order shows on records that stop short: with samples=3,
    sample_std_dev=5, std_dev=4, sample_variance=7 and variance=3 taken
    in one after the other, [m2] is 50, then 48, then 14, then 9.  The
    guard shows on an accumulator that held [m2 = 99]: with samples=1 a
    lone sample_std_dev or sample_variance sets its flag and leaves
    99. *)
Theorem toData_all_derived_fields :
  (∀ (dm : dataMarshaled.t) (d : Data),
     toData dm d
     = fold_left (import_derived dm)
         [sample_std_dev; std_dev; sample_variance; variance] (import_basic dm d))
  ∧ (∀ (dm : dataMarshaled.t) (d : Data),
       let n := Samples (toData dm d) in
       let from_sample_std_dev :=
         match dataMarshaled.SampleStdDev dm with
         | Some x => if n >? 1 then I64.mul (I64.mul x x) (I64.sub n 1) else m2 d
         | None => m2 d
         end in
       let from_std_dev :=
         match dataMarshaled.StdDev dm with
         | Some x => I64.mul (I64.mul x x) n
         | None => from_sample_std_dev
         end in
       let from_sample_variance :=
         match dataMarshaled.SampleVariance dm with
         | Some x => if n >? 1 then I64.mul x (I64.sub n 1) else from_std_dev
         | None => from_std_dev
         end in
       m2 (toData dm d)
       = match dataMarshaled.Variance dm with
         | Some x => I64.mul x n
         | None => from_sample_variance
         end)
  ∧ (∀ (dm : dataMarshaled.t) (d : Data) (ssd sd sv v : Z),
       dataMarshaled.SampleStdDev dm = Some ssd →
       dataMarshaled.StdDev dm = Some sd →
       dataMarshaled.SampleVariance dm = Some sv →
       dataMarshaled.Variance dm = Some v →
       Samples (toData dm d) = default (Samples d) (dataMarshaled.Samples dm)
       ∧ m2 (toData dm d) = I64.mul v (Samples (toData dm d))
       ∧ Flags (toData dm d) = Z.lor (Flags d) 15
       ∧ Z.land (Flags (toData dm d)) 15 = 15)
  ∧ (let record := dataMarshaled.mk (Some 3) (Some 50) (Some 75) (Some 25)
                     (Some 416) (Some 625) (Some 20) (Some 25) in
     toData record zeroData = mkData 3 50 75 25 15 None 1248
     ∧ (∀ unrepresentable,
          marshaler unrepresentable (mkData 3 50 75 25 0 None 1250) = Some record))
  ∧ toData (dataMarshaled.mk (Some 3) None None None None None None (Some 5)) zeroData
    = mkData 3 0 0 0 8 None 50
  ∧ toData (dataMarshaled.mk (Some 3) None None None None None (Some 4) (Some 5)) zeroData
    = mkData 3 0 0 0 12 None 48
  ∧ toData (dataMarshaled.mk (Some 3) None None None None (Some 7) (Some 4) (Some 5)) zeroData
    = mkData 3 0 0 0 14 None 14
  ∧ toData (dataMarshaled.mk (Some 3) None None None (Some 3) (Some 7) (Some 4) (Some 5)) zeroData
    = mkData 3 0 0 0 15 None 9
  ∧ toData (dataMarshaled.mk (Some 1) None None None None None None (Some 5))
      (mkData 9 0 0 0 0 None 99)
    = mkData 1 0 0 0 8 None 99
  ∧ toData (dataMarshaled.mk (Some 1) None None None None (Some 7) None None)
      (mkData 9 0 0 0 0 None 99)
    = mkData 1 0 0 0 2 None 99
  ∧ toData (dataMarshaled.mk (Some 1) None None None (Some 3) (Some 7) (Some 4) (Some 5))
      (mkData 9 0 0 0 0 None 99)
    = mkData 1 0 0 0 15 None 3.
Proof.
  split; [intros dm d; apply toData_refines |].
  split; [intros dm d; apply toData_last_applied |].
  split.
  - intros dm d ssd sd sv v Hssd Hsd Hsv Hv.
    destruct (toData_fields dm d) as (Hn & _ & _ & _ & Hflags & _).
    pose proof (toData_last_applied dm d) as Hm. cbn zeta in Hm. rewrite Hv in Hm.
    assert (Hall : present_flags dm = 15).
    { unfold present_flags, preference. cbn [fold_left derived_field].
      by rewrite Hssd, Hsd, Hsv, Hv. }
    rewrite Hall in Hflags.
    split; [done |]. split; [done |]. split; [done |].
    rewrite Hflags. apply land_lor_absorb.
  - split; [| repeat split; reflexivity].
    cbn zeta. split; [reflexivity |].
    intros unrepresentable. vm_compute. reflexivity.
Qed.

Lemma toData_all_derived_fields_witness :
  Samples (toData (dataMarshaled.mk (Some 3) (Some 50) (Some 75) (Some 25)
                     (Some 416) (Some 625) (Some 20) (Some 25)) zeroData) = 3
  ∧ m2 (toData (dataMarshaled.mk (Some 3) (Some 50) (Some 75) (Some 25)
                  (Some 416) (Some 625) (Some 20) (Some 25)) zeroData)
    = I64.mul 416
        (Samples (toData (dataMarshaled.mk (Some 3) (Some 50) (Some 75) (Some 25)
                            (Some 416) (Some 625) (Some 20) (Some 25)) zeroData))
  ∧ Flags (toData (dataMarshaled.mk (Some 3) (Some 50) (Some 75) (Some 25)
                     (Some 416) (Some 625) (Some 20) (Some 25)) zeroData)
    = Z.lor 0 15
  ∧ Z.land (Flags (toData (dataMarshaled.mk (Some 3) (Some 50) (Some 75) (Some 25)
                             (Some 416) (Some 625) (Some 20) (Some 25)) zeroData)) 15
    = 15.
Proof.
  apply (proj1 (proj2 (proj2 toData_all_derived_fields))
           (dataMarshaled.mk (Some 3) (Some 50) (Some 75) (Some 25)
              (Some 416) (Some 625) (Some 20) (Some 25))
           zeroData 25 20 625 416); reflexivity.
Defined.

(** ** TimeIt on every exit *)

(** [Update] along an acyclic chain with any fuel that covers the
    chain. *)
Lemma Update_along_chain (s : Z) (l : list loc) :
  ∀ (fuel : nat) (st : gmap loc Data) (a : loc),
    chain st a l → NoDup l →
    (∀ x r, x ∈ l → st !! x = Some r → I64.add (Samples r) 1 ≠ 0) →
    (length l <= fuel)%nat →
    ∃ st', Update fuel a s st = Finished (Return tt) st'
           ∧ (∀ x r, x ∈ l → st !! x = Some r →
                ∃ r', Update_body r s = Stepped r' ∧ st' !! x = Some r')
           ∧ (∀ x, x ∉ l → st' !! x = st !! x).
Proof.
  induction l as [| a l IH]; intros fuel st a0 Hchain Hnodup Hcount Hfuel;
    inversion Hchain as [a1 r Ha Hnext | a1 r b l0 Ha Hnext Hrest]; subst;
    (destruct fuel as [| fuel]; [cbn [length] in Hfuel; lia |]).
  - destruct (Update_body_steps r s) as [r' Hr']; [apply (Hcount a); [set_solver | done] |].
    exists (<[a := r']> st). split; [by apply Update_unchained with r |]. split.
    + intros x rx ->%list_elem_of_singleton Hx.
      exists r'. split; [congruence | apply lookup_insert_eq].
    + intros x Hx. apply lookup_insert_ne. set_solver.
  - apply NoDup_cons in Hnodup as [Hnotin Hnodup].
    destruct (Update_body_steps r s) as [r' Hr']; [apply (Hcount a); [set_solver | done] |].
    destruct (IH fuel (<[a := r']> st) b) as (st' & Hrun & Hin & Hout).
    + by apply chain_insert_other.
    + done.
    + intros x rx Hx. rewrite lookup_insert_ne by set_solver.
      apply Hcount. set_solver.
    + cbn [length] in Hfuel. lia.
    + exists st'. split; [by rewrite (Update_forwards _ st a b r r') |].
      split.
      * intros x rx [-> | Hx]%elem_of_cons Hlook.
        -- exists r'. split; [congruence |].
           rewrite Hout by done. apply lookup_insert_eq.
        -- apply Hin; [done |]. rewrite lookup_insert_ne; [done | set_solver].
      * intros x Hx. rewrite Hout by set_solver.
        apply lookup_insert_ne. set_solver.
Qed.

(** C6, as the code has it.  Let the timed call come to an end, by a
    return or by a panic, and let the accumulators then reached from
    [d] through [Next] form an acyclic chain on which no count is -1.
    Then, with fuel that covers the chain, [TimeIt] comes to an end
    too.  The time that elapsed has been folded by [Update] exactly
    once into each accumulator of the chain, [d] first among them, on
    the store as the call left it, and nothing else has changed.  If
    the call panicked, [TimeIt] leaves with that same panic, the sample
    recorded; if it returned, [TimeIt] returns the duration it
    folded. *)
Theorem TimeIt_folds_elapsed_once {Env Time : Type}
    (time_Now : Env → Time) (time_Since : Time → Env → Z)
    (fuel : nat) (d : loc) (fn : World Env → outcome (World Env) unit)
    (w w1 : World Env) (e : exit unit) (l : list loc) :
  fn w = Finished e w1 →
  chain (store w1) d l → NoDup l →
  (∀ x r, x ∈ l → store w1 !! x = Some r → I64.fits (Samples r) ∧ Samples r ≠ -1) →
  (length l <= fuel)%nat →
  ∃ st2,
    TimeIt time_Now time_Since fuel d fn w
    = Finished
        match e with
        | Return _ => Return (time_Since (time_Now (env w)) (env w1))
        | Panicking p => Panicking p
        end
        (mkWorld st2 (env w1))
    ∧ (∀ x r, x ∈ l → store w1 !! x = Some r →
         ∃ r', Update_body r (time_Since (time_Now (env w)) (env w1)) = Stepped r'
               ∧ st2 !! x = Some r'
               ∧ Samples r' = I64.add (Samples r) 1)
    ∧ d ∈ l
    ∧ (∀ x, x ∉ l → st2 !! x = store w1 !! x).
Proof.
  intros Hfn Hchain Hnodup Hcount Hfuel.
  destruct (Update_along_chain (time_Since (time_Now (env w)) (env w1)) l fuel (store w1) d)
    as (st2 & Hrun & Hin & Hout); try done.
  - intros x r Hx Hr Hz. destruct (Hcount x r Hx Hr) as [Hfits Hminus].
    by apply Hminus, count_wraps_to_zero.
  - exists st2. split; [| split; [| split]].
    + rewrite TimeIt_outcomes, Hfn. cbn zeta. rewrite Hrun. by destruct e as [[] | p].
    + intros x r Hx Hr. destruct (Hin x r Hx Hr) as (r' & Hbody & Hlook).
      exists r'. split; [done |]. split; [done |].
      by apply Update_body_Stepped in Hbody as (_ & -> & _).
    + inversion Hchain; subst; apply elem_of_cons; by left.
    + done.
Qed.

Lemma TimeIt_folds_elapsed_once_witness :
  ∃ st2,
    TimeIt (fun clock : Z => clock) (fun start clock => clock - start) 2 1%positive
      (fun w => Finished (Panicking (Raised 7)) (mkWorld (store w) (env w + 100)))
      (mkWorld (<[1%positive := mkData 0 0 0 0 0 (Some 2%positive) 0]>
                  {[ 2%positive := mkData 1 10 10 10 0 None 0 ]}) 1000)
    = Finished (Panicking (Raised 7)) (mkWorld st2 1100)
    ∧ (∀ x r, x ∈ [1%positive; 2%positive] →
         (<[1%positive := mkData 0 0 0 0 0 (Some 2%positive) 0]>
            ({[ 2%positive := mkData 1 10 10 10 0 None 0 ]} : gmap loc Data)) !! x = Some r →
         ∃ r', Update_body r (1100 - 1000) = Stepped r'
               ∧ st2 !! x = Some r'
               ∧ Samples r' = I64.add (Samples r) 1)
    ∧ 1%positive ∈ [1%positive; 2%positive]
    ∧ (∀ x, x ∉ [1%positive; 2%positive] →
         st2 !! x =
           (<[1%positive := mkData 0 0 0 0 0 (Some 2%positive) 0]>
              ({[ 2%positive := mkData 1 10 10 10 0 None 0 ]} : gmap loc Data)) !! x).
Proof.
  refine (TimeIt_folds_elapsed_once (fun clock : Z => clock) (fun start clock => clock - start)
            2 1%positive
            (fun w => Finished (Panicking (Raised 7)) (mkWorld (store w) (env w + 100)))
            (mkWorld (<[1%positive := mkData 0 0 0 0 0 (Some 2%positive) 0]>
                        {[ 2%positive := mkData 1 10 10 10 0 None 0 ]}) 1000)
            (mkWorld (<[1%positive := mkData 0 0 0 0 0 (Some 2%positive) 0]>
                        {[ 2%positive := mkData 1 10 10 10 0 None 0 ]}) 1100)
            (Panicking (Raised 7)) [1%positive; 2%positive] eq_refl _ _ _ _).
  - eapply chain_link; [reflexivity | reflexivity |].
    eapply chain_last; reflexivity.
  - apply (bool_decide_unpack _). reflexivity.
  - intros x r Hx Hr.
    apply elem_of_cons in Hx as [-> | Hx]; [| apply list_elem_of_singleton in Hx as ->];
      cbv in Hr; injection Hr as <-;
      (split; [split; apply Z.leb_le; reflexivity | discriminate]).
  - cbn [length]. lia.
Defined.

(** C6 as worded fails when the count is -1 as the call ends (an
    import can set it): the deferred [Update] divides by zero.  A call
    that panics with its own value does not see that failure
    propagate, a call that returns gets no duration back, and in both
    cases the mean and [m2] are as before: the sample of 100 has not
    been folded. *)
Lemma TimeIt_count_minus_one_counterexample :
  TimeIt (fun clock : Z => clock) (fun start clock => clock - start) 1 1%positive
    (fun w => Finished (Panicking (Raised 7)) (mkWorld (store w) (env w + 100)))
    (mkWorld {[ 1%positive := mkData (-1) 50 75 25 0 None 1250 ]} 1000)
  = Finished (Panicking DivideByZero)
      (mkWorld {[ 1%positive := mkData 0 50 100 25 0 None 1250 ]} 1100)
  ∧ TimeIt (fun clock : Z => clock) (fun start clock => clock - start) 1 1%positive
      (fun w => Finished (Return tt) (mkWorld (store w) (env w + 100)))
      (mkWorld {[ 1%positive := mkData (-1) 50 75 25 0 None 1250 ]} 1000)
    = Finished (Panicking DivideByZero)
        (mkWorld {[ 1%positive := mkData 0 50 100 25 0 None 1250 ]} 1100)
  ∧ @Panicking Z DivideByZero ≠ Panicking (Raised 7)
  ∧ @Panicking Z DivideByZero ≠ Return 100.
Proof.
  split; [| split; [| split; discriminate]].
  - vm_compute. reflexivity.
  - vm_compute. reflexivity.
Qed.
